(* Shallow embedding of uniseg (src/src/uniseg, src/tools/build_db_lookups.py).

   Python strings are lists of code points (Z).  Python exceptions are the
   constructors of [exn]; a computation that may raise lives in [result]. *)

From Stdlib Require Import ZArith List Bool Lia String.
From Stdlib Require Import Sorting.Sorted.
Import ListNotations.

Open Scope Z_scope.

(* ------------------------------------------------------------------------- *)
(** * Python runtime fragments *)

Module Py.

Inductive exn : Type :=
| TypeError | AttributeError | KeyError | ValueError | IndexError
| OverflowError | ImportError | UnboundLocalError.

Inductive result (A : Type) : Type :=
| Ok : A -> result A
| Err : exn -> result A.
Arguments Ok {A} _.
Arguments Err {A} _.

Definition bind {A B : Type} (m : result A) (k : A -> result B) : result B :=
  match m with
  | Ok a => k a
  | Err e => Err e
  end.

Definition is_ok {A : Type} (m : result A) : bool :=
  match m with Ok _ => true | Err _ => false end.

(** Python [str] is a sequence of code points. *)
Definition str := list Z.

(** [len(x)] *)
Definition len {A : Type} (l : list A) : Z := Z.of_nat (List.length l).

(** Normalisation of a slice bound, as CPython does for [s[i:j]]. *)
Definition slice_bound (n i : Z) : Z :=
  if i <? 0 then Z.max 0 (i + n) else Z.min i n.

(** [s[i:j]] *)
Definition slice {A : Type} (s : list A) (i j : Z) : list A :=
  let n := len s in
  let i' := Z.to_nat (slice_bound n i) in
  let j' := Z.to_nat (slice_bound n j) in
  firstn (j' - i') (skipn i' s).

(** [s[i:]] *)
Definition slice_from {A : Type} (s : list A) (i : Z) : list A :=
  skipn (Z.to_nat (slice_bound (len s) i)) s.

(** [l[i]] for a list: negative indices count from the end, anything else
    out of range raises [IndexError]. *)
Definition getitem {A : Type} (l : list A) (i : Z) : result A :=
  let i' := if i <? 0 then i + len l else i in
  if (0 <=? i') && (i' <? len l) then
    match nth_error l (Z.to_nat i') with
    | Some x => Ok x
    | None => Err IndexError
    end
  else Err IndexError.

(** The element at a non-negative index, [None] elsewhere. *)
Definition zat {A : Type} (l : list A) (x : Z) : option A :=
  if 0 <=? x then nth_error l (Z.to_nat x) else None.

Fixpoint set_nth {A : Type} (l : list A) (n : nat) (v : A) : list A :=
  match l, n with
  | [], _ => []
  | _ :: t, O => v :: t
  | x :: t, S n' => x :: set_nth t n' v
  end.

(** [l[i] = v] for a list. *)
Definition setitem {A : Type} (l : list A) (i : Z) (v : A) : result (list A) :=
  let i' := if i <? 0 then i + len l else i in
  if (0 <=? i') && (i' <? len l) then Ok (set_nth l (Z.to_nat i') v)
  else Err IndexError.

(** [x in xs] for an equality-decidable element type. *)
Definition mem {A : Type} (eqb : A -> A -> bool) (x : A) (xs : list A) : bool :=
  existsb (eqb x) xs.

(** [o in xs] when [o] is an [Optional]: [None in xs] is [False] because the
    tuples of the source never contain [None]. *)
Definition opt_in {A : Type} (eqb : A -> A -> bool) (o : option A) (xs : list A) : bool :=
  match o with Some x => mem eqb x xs | None => false end.

(** [o == x] where [o] is an [Optional]. *)
Definition opt_is {A : Type} (eqb : A -> A -> bool) (o : option A) (x : A) : bool :=
  match o with Some y => eqb y x | None => false end.

(** [o1 == o2] for two [Optional] values. *)
Definition opt_eqb {A : Type} (eqb : A -> A -> bool) (o1 o2 : option A) : bool :=
  match o1, o2 with
  | Some x, Some y => eqb x y
  | None, None => true
  | _, _ => false
  end.

(** Keyword arguments of a call: CPython raises [TypeError] for a keyword the
    callee does not declare. *)
Fixpoint check_kwargs (declared : list string) (kws : list (string * bool)) : result unit :=
  match kws with
  | [] => Ok tt
  | (k, _) :: rest =>
      if existsb (String.eqb k) declared then check_kwargs declared rest
      else Err TypeError
  end.

Fixpoint kwarg (k : string) (default : bool) (kws : list (string * bool)) : bool :=
  match kws with
  | [] => default
  | (k', v) :: rest => if String.eqb k k' then v else kwarg k default rest
  end.

(** Calling a [list] object ([x()] where [x] is a list): [TypeError]. *)
Definition call_list {A B : Type} (_ : list A) : result B := Err TypeError.

End Py.

Import Py.

Notation "'let*' x ':=' m 'in' k" := (Py.bind m (fun x => k))
  (at level 200, x name, m at level 100, k at level 200).

(* ------------------------------------------------------------------------- *)
(** * breaking.py: [boundaries] and [break_units] *)

Module Breaking.

(** Python truthiness of an element of a breakable table. *)
Definition truthy (bk : Z) : bool := negb (bk =? 0).

(** The [for i, breakable in enumerate(breakables)] loop of [boundaries]:
    the yielded indices and the last value bound to [i]. *)
Fixpoint boundaries_loop (i : Z) (bs : list Z) (last : option Z) : list Z * option Z :=
  match bs with
  | [] => ([], last)
  | bk :: rest =>
      let '(ys, l) := boundaries_loop (i + 1) rest (Some i) in
      ((if truthy bk then [i] else []) ++ ys, l)
  end.

Definition boundaries (bs : list Z) : list Z :=
  let '(ys, last) := boundaries_loop 0 bs None in
  match last with
  | Some i => ys ++ [i + 1]
  | None => ys
  end.

(** The [for j, bk in enumerate(breakables)] loop of [break_units]:
    the yielded tokens and the final value of [i]. *)
Fixpoint break_units_loop (s : str) (j i : Z) (bs : list Z) : list str * Z :=
  match bs with
  | [] => ([], i)
  | bk :: rest =>
      if truthy bk then
        let '(ys, i') := break_units_loop s (j + 1) j rest in
        ((if j =? 0 then [] else [slice s i j]) ++ ys, i')
      else break_units_loop s (j + 1) i rest
  end.

Definition break_units (s : str) (bs : list Z) : list str :=
  let '(ys, i) := break_units_loop s 0 0 bs in
  match s with
  | [] => ys
  | _ => ys ++ [slice_from s i]
  end.

End Breaking.


(* ------------------------------------------------------------------------- *)
(** * breaking.py: [Breakable] and the [Run] cursor *)

Module RunCursor.

Inductive Breakable : Type := DoNotBreak | Break.

Definition Breakable_value (b : Breakable) : Z :=
  match b with DoNotBreak => 0 | Break => 1 end.

Record Run (T : Type) : Type := mkRun {
  run_text : str;
  run_values : list T;
  run_skip : list T;
  run_breakables : list (option Breakable);
  run_position : Z;
  run_condition : bool
}.
Arguments mkRun {T} _ _ _ _ _ _.
Arguments run_text {T} _.
Arguments run_values {T} _.
Arguments run_skip {T} _.
Arguments run_breakables {T} _.
Arguments run_position {T} _.
Arguments run_condition {T} _.

(** The attributes class [Run] defines (properties and methods). *)
Definition Run_attributes : list string :=
  (["text"; "position"; "curr"; "prev"; "next"; "breakables"; "chr";
    "value"; "values"; "walk"; "head"; "skip"; "is_continuing";
    "is_following"; "is_leading"; "break_here"; "do_not_break_here";
    "does_break_here"; "set_default"; "literal_breakables"])%string.

(** [run.name] for a name outside [Run_attributes]: [AttributeError].  The
    translation of an engine stops at such a statement, which always raises. *)
Definition getattr_missing {A : Type} (name : string) : result A := Err AttributeError.

(** Keyword parameters of [is_following] and [is_leading]. *)
Definition is_following_kwargs : list string := (["variable"; "noskip"])%string.

Section RunOps.
Variable T : Type.
Variable T_eqb : T -> T -> bool.

Definition set_position_condition (r : Run T) (pos : Z) (c : bool) : Run T :=
  mkRun (run_text r) (run_values r) (run_skip r) (run_breakables r) pos c.

Definition set_condition (r : Run T) (c : bool) : Run T :=
  set_position_condition r (run_position r) c.

Definition set_breakables (r : Run T) (bs : list (option Breakable)) : Run T :=
  mkRun (run_text r) (run_values r) (run_skip r) bs (run_position r) (run_condition r).

(** [Run(text, func)] *)
Definition Run_new (text : str) (func : Z -> T) : Run T :=
  mkRun text (map func text) [] (repeat None (List.length text)) 0
        (match text with [] => false | _ => true end).

(** [self._values[i] in self._skip] *)
Definition in_skip (r : Run T) (i : Z) : bool :=
  match nth_error (run_values r) (Z.to_nat i) with
  | Some v => mem T_eqb v (run_skip r)
  | None => false
  end.

(** The inner [while 0 <= i < len(self._text) and (...): i += vec] of
    [_calc_position]; every iteration moves [i] by [vec] inside the text, so
    [len(text) + 1] iterations suffice. *)
Fixpoint skip_while (fuel : nat) (r : Run T) (noskip : bool) (vec i : Z) : Z :=
  match fuel with
  | O => i
  | S f =>
      if (0 <=? i) && (i <? len (run_text r)) && (negb noskip && in_skip r i)
      then skip_while f r noskip vec (i + vec) else i
  end.

(** The [for __ in range(abs(offset))] loop of [_calc_position]. *)
Fixpoint calc_steps (k : nat) (r : Run T) (noskip : bool) (vec i : Z) : Z :=
  match k with
  | O => i
  | S k' =>
      calc_steps k' r noskip vec
        (skip_while (S (List.length (run_text r))) r noskip vec (i + vec))
  end.

Definition calc_position (r : Run T) (offset : Z) (noskip : bool) : Z :=
  let vec := if offset =? 0 then 0 else offset / Z.abs offset in
  calc_steps (Z.to_nat (Z.abs offset)) r noskip vec (run_position r).

Definition value (r : Run T) (offset : Z) (noskip : bool) : option T :=
  let i := calc_position r offset noskip in
  if run_condition r && (0 <=? i) && (i <? len (run_text r))
  then nth_error (run_values r) (Z.to_nat i) else None.

Definition curr (r : Run T) : option T := value r 0 false.
Definition prev (r : Run T) : option T := value r (-1) false.
Definition next (r : Run T) : option T := value r 1 false.

(** [run.walk(offset, noskip)]: the returned flag and the updated cursor. *)
Definition walk (r : Run T) (offset : Z) (noskip : bool) : bool * Run T :=
  if run_condition r then
    let pos := calc_position r offset noskip in
    if pos <? 0 then (false, set_position_condition r 0 false)
    else if len (run_text r) <=? pos then
      (false, set_position_condition r (len (run_text r) - 1) false)
    else (true, set_position_condition r pos true)
  else (false, r).

Definition head (r : Run T) : Run T := set_position_condition r 0 true.

Definition skip (r : Run T) (vs : list T) : Run T :=
  mkRun (run_text r) (run_values r) vs (run_breakables r) (run_position r) (run_condition r).

(** [while run.value(vec, noskip=noskip) in values:
        if not run.walk(vec, noskip=noskip): break] *)
Fixpoint continuing_while (fuel : nat) (r : Run T) (values : list T) (vec : Z)
    (noskip : bool) : Run T :=
  match fuel with
  | O => r
  | S f =>
      if opt_in T_eqb (value r vec noskip) values then
        let '(ok, r') := walk r vec noskip in
        if ok then continuing_while f r' values vec noskip else r'
      else r
  end.

Definition is_continuing (self : Run T) (values : list T)
    (variable backward noskip : bool) : Run T :=
  let vec := if backward then -1 else 1 in
  if variable then
    let r := continuing_while (S (List.length (run_text self))) self values vec noskip in
    set_condition r (run_condition self && true)
  else
    let '(ok, r) := walk self vec noskip in
    set_condition r (run_condition self && (ok && opt_in T_eqb (curr r) values)).

(** [run.is_following(values, **kws)] *)
Definition is_following (r : Run T) (values : list T) (kws : list (string * bool))
    : result (Run T) :=
  let* _ := check_kwargs is_following_kwargs kws in
  Ok (is_continuing r values (kwarg "variable"%string false kws) true (kwarg "noskip"%string false kws)).

(** [run.is_leading(values, **kws)] *)
Definition is_leading (r : Run T) (values : list T) (kws : list (string * bool))
    : result (Run T) :=
  let* _ := check_kwargs is_following_kwargs kws in
  Ok (is_continuing r values (kwarg "variable"%string false kws) false (kwarg "noskip"%string false kws)).

Definition write_if_unknown (r : Run T) (b : Breakable) : result (Run T) :=
  match run_text r with
  | [] => Ok r
  | _ =>
      let* cur := getitem (run_breakables r) (run_position r) in
      match cur with
      | None =>
          let* bs := setitem (run_breakables r) (run_position r) (Some b) in
          Ok (set_breakables r bs)
      | Some _ => Ok r
      end
  end.

Definition break_here (r : Run T) : result (Run T) := write_if_unknown r Break.
Definition do_not_break_here (r : Run T) : result (Run T) := write_if_unknown r DoNotBreak.

(** [bool(self._breakables[self._position])]: [bool(None)] is [False] and
    [bool(Breakable.x)] is [bool(Breakable.x.value)]. *)
Definition does_break_here (r : Run T) : result bool :=
  let* x := getitem (run_breakables r) (run_position r) in
  Ok (match x with Some b => negb (Breakable_value b =? 0) | None => false end).

Definition set_default (r : Run T) (b : Breakable) : Run T :=
  set_breakables r (map (fun x => match x with None => Some b | Some _ => x end)
                        (run_breakables r)).

Definition literal_breakables (r : Run T) (default : Breakable) : list Z :=
  map (fun x => Breakable_value (match x with None => default | Some b => b end))
      (run_breakables r).

(** [while run.walk(): body] for an engine pass; each iteration advances the
    position, so [len(text) + 1] iterations suffice. *)
Fixpoint while_walk (fuel : nat) (body : Run T -> result (Run T)) (r : Run T)
    : result (Run T) :=
  match fuel with
  | O => Ok r
  | S f =>
      let '(ok, r') := walk r 1 false in
      if ok then let* r'' := body r' in while_walk f body r'' else Ok r'
  end.

End RunOps.

Arguments set_position_condition {T} _ _ _.
Arguments set_condition {T} _ _.
Arguments set_breakables {T} _ _.
Arguments Run_new {T} _ _.
Arguments head {T} _.
Arguments set_default {T} _ _.
Arguments literal_breakables {T} _ _.
Arguments write_if_unknown {T} _ _.
Arguments break_here {T} _.
Arguments do_not_break_here {T} _.
Arguments does_break_here {T} _.

End RunCursor.


(* ------------------------------------------------------------------------- *)
(** * graphemecluster.py *)

Module Grapheme.
Import RunCursor.

(** The values the InCB cursor of [grapheme_cluster_breakables] compares:
    the cursor holds what [db.indic_conjunct_break] returns (a [bool]) and the
    rule tuples hold [str] literals. *)
Inductive pyval : Type := PyBool (b : bool) | PyStr (s : string).

Definition pyval_eqb (x y : pyval) : bool :=
  match x, y with
  | PyBool a, PyBool b => Bool.eqb a b
  | PyStr a, PyStr b => String.eqb a b
  | _, _ => false
  end.

Section Grapheme.
(** [db.indic_conjunct_break(ch)]: [bool(values[_find_break(ch)][INDEX_INDIC_CONJUNCT_BREAK])]. *)
Variable indic_conjunct_break : Z -> bool.

(** Body of the first [while run.walk():] loop (GB9c on the InCB cursor). *)
Definition incb_body (run : Run pyval) : result (Run pyval) :=
  let* r1 := is_following pyval pyval_eqb run
               [PyStr "Extend"; PyStr "Linker"] [("greedy"%string, true)] in
  if opt_is pyval_eqb (prev pyval pyval_eqb r1) (PyStr "Consonant") then
    let* r2 := is_following pyval pyval_eqb run [PyStr "Extend"] [("greedy"%string, true)] in
    if negb (opt_is pyval_eqb (prev pyval pyval_eqb r2) (PyStr "Consonant"))
       && opt_is pyval_eqb (curr pyval pyval_eqb run) (PyStr "Consonant")
    then do_not_break_here run else Ok run
  else Ok run.

Definition grapheme_cluster_breakables (s : str) : result (list Z) :=
  match s with
  | [] => Ok []
  | _ =>
      let run := Run_new s (fun c => PyBool (indic_conjunct_break c)) in
      let* run := while_walk pyval pyval_eqb (S (List.length s)) incb_body run in
      (* [incb_breakables = run.breakables()]: [breakables] is a property whose
         value is a list, and calling a list raises; the main pass (GB3..GB13)
         follows this statement. *)
      call_list (run_breakables run)
  end.

Definition grapheme_cluster_boundaries (s : str) : result (list Z) :=
  let* b := grapheme_cluster_breakables s in Ok (Breaking.boundaries b).

Definition grapheme_clusters (s : str) : result (list str) :=
  let* b := grapheme_cluster_breakables s in Ok (Breaking.break_units s b).

End Grapheme.
End Grapheme.

(* ------------------------------------------------------------------------- *)
(** * linebreak.py *)

Module LineBreakM.
Import RunCursor.

Inductive LineBreak : Type :=
| BK | CR | LF | CM | NL | SG | WJ | ZW | GL | SP | ZWJ | B2 | BA | BB | HY
| CB | CL | CP | EX | IN | NS | OP | QU | IS | NU | PO | PR | SY | AI | AK
| AL | AP | AS | CJ | EB | EM | H2 | H3 | HL | ID | JL | JV | JT | RI | SA
| VF | VI | XX.

Scheme Equality for LineBreak.

Definition LB_eqb (x y : LineBreak) : bool :=
  if LineBreak_eq_dec x y then true else false.

Section Line.
(** [line_break(ch)]: the Line_Break property of a code point. *)
Variable line_break : Z -> LineBreak.
(** [unicodedata.category(ch)]. *)
Variable category : Z -> string.

Definition resolve_lb1_linebreak (ch : Z) : LineBreak :=
  let lb := line_break ch in
  let cat := category ch in
  if mem LB_eqb lb [AI; SG; XX] then AL
  else if LB_eqb lb SA then
    (if existsb (String.eqb cat) ["Mn"%string; "Mc"%string] then CM else AL)
  else if LB_eqb lb CJ then NS
  else lb.

Definition prevL := prev LineBreak LB_eqb.
Definition currL := curr LineBreak LB_eqb.

(** Body of the primary pass (LB4 .. LB8a). *)
Definition lb_pass1_body (run : Run LineBreak) : result (Run LineBreak) :=
  (* LB4 *)
  if opt_is LB_eqb (prevL run) BK then break_here run
  (* LB5 *)
  else if opt_is LB_eqb (prevL run) CR && opt_is LB_eqb (currL run) LF then do_not_break_here run
  else if opt_in LB_eqb (prevL run) [CR; LF; NL] then break_here run
  (* LB6 *)
  else if opt_in LB_eqb (currL run) [BK; CR; LF; NL] then do_not_break_here run
  (* LB7 *)
  else if opt_in LB_eqb (currL run) [SP; ZW] then do_not_break_here run
  (* LB8 *)
  else
    let* r0 := is_following LineBreak LB_eqb run [SP] [("greedy"%string, true)] in
    if opt_is LB_eqb (prevL r0) ZW then break_here run
    (* LB8a *)
    else if opt_is LB_eqb (prevL run) ZWJ then do_not_break_here run
    else Ok run.

(** The LB9 loop: [while run.walk(): ...], appending to [skip_table]. *)
Fixpoint lb9_loop (fuel : nat) (run : Run LineBreak) (skip_table : list Z)
    : result (Run LineBreak * list Z) :=
  match fuel with
  | O => Ok (run, skip_table)
  | S f =>
      let '(ok, run) := walk LineBreak LB_eqb run 1 false in
      if ok then
        let* r0 := is_following LineBreak LB_eqb run [CM; ZWJ] [("greedy"%string, true)] in
        if negb (opt_in LB_eqb (prevL r0) [BK; CR; LF; NL; SP; ZW])
           && opt_in LB_eqb (currL run) [CM; ZWJ]
        then
          let* run := do_not_break_here run in
          lb9_loop f run (skip_table ++ [0])
        else lb9_loop f run (skip_table ++ [1])
      else Ok (run, skip_table)
  end.

(** [legacy] is a parameter of the source function that its body never reads. *)
Definition line_break_breakables (s : str) (legacy : bool) : result (list Z) :=
  match s with
  | [] => Ok []
  | _ =>
      (* LB1 *)
      let run := Run_new s resolve_lb1_linebreak in
      (* LB2 *)
      let* run := do_not_break_here run in
      let* run := while_walk LineBreak LB_eqb (S (List.length s)) lb_pass1_body run in
      (* LB9 *)
      let run := head run in
      let* st := lb9_loop (S (List.length s)) run [1] in
      let '(run, skip_table) := st in
      (* [run.set_skip_table(skip_table)]: [Run] has no such attribute; the
         passes LB10 .. LB31 follow this statement. *)
      getattr_missing "set_skip_table"
  end.

Definition line_break_boundaries (s : str) (legacy : bool) : result (list Z) :=
  let* b := line_break_breakables s legacy in Ok (Breaking.boundaries b).

Definition line_break_units (s : str) (legacy : bool) : result (list str) :=
  let* b := line_break_breakables s legacy in Ok (Breaking.break_units s b).

End Line.
End LineBreakM.

(* ------------------------------------------------------------------------- *)
(** * sentencebreak.py *)

Module SentenceBreakM.
Import RunCursor.

Inductive SentenceBreak : Type :=
| Other | CR | LF | Extend | Sep | Format | Sp | Lower | Upper | OLetter
| Numeric | ATerm | SContinue | STerm | Close.

Scheme Equality for SentenceBreak.

Definition SB_eqb (x y : SentenceBreak) : bool :=
  if SentenceBreak_eq_dec x y then true else false.

Definition ParaSepTuple : list SentenceBreak := [Sep; CR; LF].

Section Sentence.
(** [sentence_break(ch)]: the Sentence_Break property of a code point. *)
Variable sentence_break : Z -> SentenceBreak.

Definition prevS := prev SentenceBreak SB_eqb.
Definition currS := curr SentenceBreak SB_eqb.

(** Body of the first pass (SB3, SB4). *)
Definition sb_pass1_body (run : Run SentenceBreak) : result (Run SentenceBreak) :=
  (* SB3 *)
  if opt_is SB_eqb (prevS run) CR && opt_is SB_eqb (currS run) LF then do_not_break_here run
  (* SB4 *)
  else if opt_in SB_eqb (prevS run) ParaSepTuple then break_here run
  else Ok run.

Definition sentence_breakables (s : str) : result (list Z) :=
  let run := Run_new s sentence_break in
  (* SB1 *)
  let* run := break_here run in
  let* run := while_walk SentenceBreak SB_eqb (S (List.length s)) sb_pass1_body run in
  (* SB5: [run.set_skip_table(...)]: [Run] has no such attribute; the second
     pass (SB6 .. SB11) and SB998 follow this statement. *)
  getattr_missing "set_skip_table".

Definition sentence_boundaries (s : str) : result (list Z) :=
  let* b := sentence_breakables s in Ok (Breaking.boundaries b).

Definition sentences (s : str) : result (list str) :=
  let* b := sentence_breakables s in Ok (Breaking.break_units s b).

End Sentence.
End SentenceBreakM.


(* ------------------------------------------------------------------------- *)
(** * wordbreak.py *)

Module WordBreakM.

Inductive WordBreak : Type :=
| OTHER | CR | LF | NEWLINE | EXTEND | ZWJ | REGIONAL_INDICATOR | FORMAT
| KATAKANA | HEBREW_LETTER | ALETTER | SINGLE_QUOTE | DOUBLE_QUOTE | MIDNUMLET
| MIDLETTER | MIDNUM | NUMERIC | EXTENDNUMLET | WSEGSPACE.

Scheme Equality for WordBreak.

Definition WB_eqb (x y : WordBreak) : bool :=
  if WordBreak_eq_dec x y then true else false.

Definition AHLetterTuple : list WordBreak := [ALETTER; HEBREW_LETTER].
Definition MidNumLetQTuple : list WordBreak := [MIDNUMLET; SINGLE_QUOTE].

(** The state of a [Runner].  [_writes] is a ghost field: the
    [(position, value)] pairs stored by [break_here] and [do_not_break_here],
    in the order of the calls; the source keeps no such list. *)
Record Runner : Type := mkRunner {
  _text : str;
  _values : list WordBreak;
  _skip : list WordBreak;
  _breakables : list Z;
  _i : Z;
  _writes : list (Z * Z)
}.

Definition set_i (r : Runner) (i : Z) : Runner :=
  mkRunner (_text r) (_values r) (_skip r) (_breakables r) i (_writes r).

Section Word.
(** [word_break(c)] of the module, [WordBreak[_word_break(code_point(c, 0)).upper()]]. *)
Variable word_break : Z -> WordBreak.
(** [db.extended_pictographic(ch)]. *)
Variable extended_pictographic : Z -> bool.

(** [Runner(s)] *)
Definition Runner_new (s : str) : Runner :=
  mkRunner s (map word_break s) [] (map (fun _ => 1) s) 0 [].

(** [self._values[i] if 0 <= i < len(self._text) else None] *)
Definition at_value (r : Runner) (i : Z) : option WordBreak :=
  if (0 <=? i) && (i <? len (_text r)) then nth_error (_values r) (Z.to_nat i) else None.

(** [self._values[i] in self._skip] *)
Definition skipped (r : Runner) (i : Z) : bool :=
  match nth_error (_values r) (Z.to_nat i) with
  | Some v => mem WB_eqb v (_skip r)
  | None => false
  end.

(** [while 0 <= i < len(self._text) and self._values[i] in self._skip: i += vec];
    [i] moves by [vec] inside the text, so [len(text) + 1] iterations suffice. *)
Fixpoint value_skip (fuel : nat) (r : Runner) (vec i : Z) : Z :=
  match fuel with
  | O => i
  | S f =>
      if (0 <=? i) && (i <? len (_text r)) && skipped r i
      then value_skip f r vec (i + vec) else i
  end.

(** [for __ in range(abs(offset)): i += vec; while ...] *)
Fixpoint value_steps (k : nat) (r : Runner) (vec i : Z) : Z :=
  match k with
  | O => i
  | S k' => value_steps k' r vec (value_skip (S (List.length (_text r))) r vec (i + vec))
  end.

Definition value (r : Runner) (offset : Z) : option WordBreak :=
  if offset =? 0 then at_value r (_i r)
  else
    let vec := offset / Z.abs offset in
    at_value r (value_steps (Z.to_nat (Z.abs offset)) r vec (_i r)).

Definition curr (r : Runner) : option WordBreak := value r 0.
Definition prev (r : Runner) : option WordBreak := value r (-1).
Definition next (r : Runner) : option WordBreak := value r 1.

(** [self._text[self._i]] *)
Definition chr (r : Runner) : result Z := getitem (_text r) (_i r).

(** [while self._i < len(self._text) and self._values[self._i] in self._skip:
        self._i += 1] *)
Fixpoint walk_skip (fuel : nat) (r : Runner) (i : Z) : Z :=
  match fuel with
  | O => i
  | S f => if (i <? len (_text r)) && skipped r i then walk_skip f r (i + 1) else i
  end.

(** [run.walk()]: the returned flag and the updated runner. *)
Definition walk (r : Runner) : bool * Runner :=
  let i := walk_skip (S (List.length (_text r))) r (_i r + 1) in
  (i <? len (_text r), set_i r i).

Definition head (r : Runner) : Runner := set_i r 0.

Definition skip (r : Runner) (vs : list WordBreak) : Runner :=
  mkRunner (_text r) (_values r) vs (_breakables r) (_i r) (_writes r).

(** [self._breakables[self._i] = v], recorded in [_writes]. *)
Definition write (r : Runner) (v : Z) : result Runner :=
  let* bs := setitem (_breakables r) (_i r) v in
  Ok (mkRunner (_text r) (_values r) (_skip r) bs (_i r) (_writes r ++ [(_i r, v)])).

Definition break_here (r : Runner) : result Runner := write r 1.
Definition do_not_break_here (r : Runner) : result Runner := write r 0.

(** WB3d and WB4 of the first pass. *)
Definition wb_pass1_rest (r : Runner) : result Runner :=
  (* WB3d *)
  if opt_eqb WB_eqb (prev r) (curr r) && opt_is WB_eqb (curr r) WSEGSPACE
  then do_not_break_here r
  (* WB4 *)
  else if opt_in WB_eqb (curr r) [FORMAT; EXTEND; ZWJ] then do_not_break_here r
  else Ok r.

(** Body of the first [while run.walk():] loop (WB3 .. WB4). *)
Definition wb_pass1_body (r : Runner) : result Runner :=
  (* WB3 *)
  if opt_is WB_eqb (prev r) CR && opt_is WB_eqb (curr r) LF then do_not_break_here r
  (* WB3a *)
  else if opt_in WB_eqb (prev r) [NEWLINE; CR; LF] then break_here r
  (* WB3b *)
  else if opt_in WB_eqb (curr r) [NEWLINE; CR; LF] then break_here r
  (* WB3c: [run.chr] is only evaluated when [run.prev == WB.ZWJ] *)
  else if opt_is WB_eqb (prev r) ZWJ then
    let* ch := chr r in
    if extended_pictographic ch then do_not_break_here r else wb_pass1_rest r
  else wb_pass1_rest r.

(** Body of the second [while run.walk():] loop (WB5 .. WB13b). *)
Definition wb_pass2_body (r : Runner) : result Runner :=
  (* WB5 *)
  if opt_in WB_eqb (prev r) AHLetterTuple && opt_in WB_eqb (curr r) AHLetterTuple
  then do_not_break_here r
  (* WB6 *)
  else if opt_in WB_eqb (prev r) AHLetterTuple
          && opt_in WB_eqb (curr r) (MIDLETTER :: MidNumLetQTuple)
          && opt_in WB_eqb (next r) AHLetterTuple
  then do_not_break_here r
  (* WB7 *)
  else if opt_in WB_eqb (value r (-2)) AHLetterTuple
          && opt_in WB_eqb (prev r) (MIDLETTER :: MidNumLetQTuple)
          && opt_in WB_eqb (curr r) AHLetterTuple
  then do_not_break_here r
  (* WB7a *)
  else if opt_is WB_eqb (prev r) HEBREW_LETTER && opt_is WB_eqb (curr r) SINGLE_QUOTE
  then do_not_break_here r
  (* WB7b *)
  else if opt_is WB_eqb (prev r) HEBREW_LETTER && opt_is WB_eqb (curr r) DOUBLE_QUOTE
          && opt_is WB_eqb (next r) HEBREW_LETTER
  then do_not_break_here r
  (* WB7c *)
  else if opt_is WB_eqb (value r (-2)) HEBREW_LETTER && opt_is WB_eqb (prev r) DOUBLE_QUOTE
          && opt_is WB_eqb (curr r) HEBREW_LETTER
  then do_not_break_here r
  (* WB8 *)
  else if opt_eqb WB_eqb (prev r) (curr r) && opt_is WB_eqb (curr r) NUMERIC
  then do_not_break_here r
  (* WB9 *)
  else if opt_in WB_eqb (prev r) AHLetterTuple && opt_is WB_eqb (curr r) NUMERIC
  then do_not_break_here r
  (* WB10 *)
  else if opt_is WB_eqb (prev r) NUMERIC && opt_in WB_eqb (curr r) AHLetterTuple
  then do_not_break_here r
  (* WB11 *)
  else if opt_is WB_eqb (value r (-2)) NUMERIC
          && opt_in WB_eqb (prev r) (MIDNUM :: MidNumLetQTuple)
          && opt_is WB_eqb (curr r) NUMERIC
  then do_not_break_here r
  (* WB12 *)
  else if opt_is WB_eqb (prev r) NUMERIC
          && opt_in WB_eqb (curr r) (MIDNUM :: MidNumLetQTuple)
          && opt_is WB_eqb (next r) NUMERIC
  then do_not_break_here r
  (* WB13 *)
  else if opt_eqb WB_eqb (prev r) (curr r) && opt_is WB_eqb (curr r) KATAKANA
  then do_not_break_here r
  (* WB13a *)
  else if opt_in WB_eqb (prev r) (AHLetterTuple ++ [NUMERIC; KATAKANA; EXTENDNUMLET])
          && opt_is WB_eqb (curr r) EXTENDNUMLET
  then do_not_break_here r
  (* WB13b *)
  else if opt_is WB_eqb (prev r) EXTENDNUMLET
          && opt_in WB_eqb (curr r) (AHLetterTuple ++ [NUMERIC; KATAKANA])
  then do_not_break_here r
  else Ok r.

(** [while run.walk(): body]; the position grows at every iteration, so
    [len(s) + 1] iterations suffice. *)
Fixpoint runner_while (fuel : nat) (body : Runner -> result Runner) (r : Runner)
    : result Runner :=
  match fuel with
  | O => Ok r
  | S f =>
      let '(ok, r') := walk r in
      if ok then let* r'' := body r' in runner_while f body r'' else Ok r'
  end.

(** [while run.curr != WB.REGIONAL_INDICATOR: if not run.walk(): break] *)
Fixpoint seek_ri (fuel : nat) (r : Runner) : Runner :=
  match fuel with
  | O => r
  | S f =>
      if negb (opt_is WB_eqb (curr r) REGIONAL_INDICATOR) then
        let '(ok, r') := walk r in if ok then seek_ri f r' else r'
      else r
  end.

(** [while run.prev == run.curr == WB.REGIONAL_INDICATOR:
        run.do_not_break_here()
        if not run.walk(): break
        if not run.walk(): break] *)
Fixpoint pair_ri (fuel : nat) (r : Runner) : result Runner :=
  match fuel with
  | O => Ok r
  | S f =>
      if opt_eqb WB_eqb (prev r) (curr r) && opt_is WB_eqb (curr r) REGIONAL_INDICATOR then
        let* r1 := do_not_break_here r in
        let '(ok1, r2) := walk r1 in
        if ok1 then
          let '(ok2, r3) := walk r2 in
          if ok2 then pair_ri f r3 else Ok r3
        else Ok r2
      else Ok r
  end.

(** The [while 1:] loop of WB15. *)
Fixpoint ri_loop (fuel : nat) (r : Runner) : result Runner :=
  match fuel with
  | O => Ok r
  | S f =>
      let r1 := seek_ri (S (List.length (_text r))) r in
      let '(ok, r2) := walk r1 in
      if ok then let* r3 := pair_ri (S (List.length (_text r))) r2 in ri_loop f r3
      else Ok r2
  end.

(** The runner at the end of [word_breakables(s)] for a non-empty [s]. *)
Definition word_run (s : str) : result Runner :=
  let n := S (List.length s) in
  let run := Runner_new s in
  let* run := runner_while n wb_pass1_body run in
  (* WB4 *)
  let run := skip (head run) [EXTEND; FORMAT; ZWJ] in
  let* run := runner_while n wb_pass2_body run in
  let run := head run in
  (* WB15 *)
  ri_loop n run.

Definition word_breakables (s : str) : result (list Z) :=
  match s with
  | [] => Ok []
  | _ => let* run := word_run s in Ok (_breakables run)
  end.

Definition word_boundaries (s : str) : result (list Z) :=
  let* b := word_breakables s in Ok (Breaking.boundaries b).

Definition words (s : str) : result (list str) :=
  let* b := word_breakables s in Ok (Breaking.break_units s b).

End Word.
End WordBreakM.

(* ------------------------------------------------------------------------- *)
(** * db.py and indicconjunctbreak.py *)

Module Db.

(** [sys.maxunicode] *)
Definition maxunicode : Z := 1114111.

(** [lst.index(x)] on a tuple of strings: [ValueError] when absent. *)
Fixpoint tuple_index (l : list string) (x : string) : result Z :=
  match l with
  | [] => Err ValueError
  | y :: rest =>
      if String.eqb x y then Ok 0
      else let* k := tuple_index rest x in Ok (k + 1)
  end.

(** [v or d] for a string [v]. *)
Definition str_or (v d : string) : string :=
  if String.eqb v EmptyString then d else v.

(** [bool(v)] for a string [v]. *)
Definition str_bool (v : string) : bool := negb (String.eqb v EmptyString).

Section Db.
(** The generated module [uniseg.db_lookups]: [columns], [index1], [index2],
    [shift] and [values] (a tuple of rows, each a tuple of strings). *)
Variable columns : list string.
Variable index1 index2 : list Z.
Variable shift : Z.
Variable values : list (list string).

Definition INDEX_GRAPHEME_CLUSTER_BREAK := tuple_index columns "GraphemeClusterBreak".
Definition INDEX_WORD_BREAK := tuple_index columns "WordBreak".
Definition INDEX_SENTENCE_BREAK := tuple_index columns "SentenceBreak".
Definition INDEX_LINE_BREAK := tuple_index columns "LineBreak".
Definition INDEX_EXTENDED_PICTOGRAPHIC := tuple_index columns "Extended_Pictographic".
Definition INDEX_INDIC_CONJUNCT_BREAK := tuple_index columns "InCB".

(** [_find_break(ch)] with [cp = ord(ch)]. *)
Definition _find_break (cp : Z) : result Z :=
  if maxunicode <? cp then Ok 0
  else
    let* index := getitem index1 (Z.shiftr cp shift) in
    getitem index2 (Z.shiftl index shift + Z.land cp (Z.shiftl 1 shift - 1)).

(** [values[_find_break(ch)][column]] *)
Definition property_value (column : result Z) (cp : Z) : result string :=
  let* i := _find_break cp in
  let* row := getitem values i in
  let* col := column in
  getitem row col.

Definition grapheme_cluster_break (cp : Z) : result string :=
  let* v := property_value INDEX_GRAPHEME_CLUSTER_BREAK cp in Ok (str_or v "Other").

Definition word_break (cp : Z) : result string :=
  let* v := property_value INDEX_WORD_BREAK cp in Ok (str_or v "Other").

Definition sentence_break (cp : Z) : result string :=
  let* v := property_value INDEX_SENTENCE_BREAK cp in Ok (str_or v "Other").

Definition line_break (cp : Z) : result string :=
  let* v := property_value INDEX_LINE_BREAK cp in Ok (str_or v "XX").

Definition extended_pictographic (cp : Z) : result bool :=
  let* v := property_value INDEX_EXTENDED_PICTOGRAPHIC cp in Ok (str_bool v).

Definition indic_conjunct_break (cp : Z) : result bool :=
  let* v := property_value INDEX_INDIC_CONJUNCT_BREAK cp in Ok (str_bool v).

End Db.
End Db.

Module IndicConjunctBreakM.

Inductive IndicConjunctBreakProperty : Type := None_ | Linker | Consonant | Extend.

(** A key passed to [Enum.__getitem__]. *)
Inductive pykey : Type := KStr (s : string) | KBool (b : bool).

(** [IndicConjunctBreakProperty[name]]: the lookup in [_member_map_], a dict
    keyed by the member names; any other key raises [KeyError]. *)
Definition member_map : list (string * IndicConjunctBreakProperty) :=
  [("None_"%string, None_); ("Linker"%string, Linker);
   ("Consonant"%string, Consonant); ("Extend"%string, Extend)].

Definition enum_getitem (k : pykey) : result IndicConjunctBreakProperty :=
  match k with
  | KStr n =>
      match find (fun p => String.eqb (fst p) n) member_map with
      | Some (_, m) => Ok m
      | None => Err KeyError
      end
  | KBool _ => Err KeyError
  end.

Section Incb.
Variable columns : list string.
Variable index1 index2 : list Z.
Variable shift : Z.
Variable values : list (list string).
(** [uniseg.codepoint.code_point(c, index)]: the module is not part of the
    sources; the statements below hold for any such function. *)
Variable code_point : str -> Z -> result Z.

(** [indic_conjunct_break(c, index)] of indicconjunctbreak.py; [None] stands
    for Python's [None]. *)
Definition indic_conjunct_break (c : str) (index : Z)
    : result (option IndicConjunctBreakProperty) :=
  let* cp := code_point c index in
  let* name := Db.indic_conjunct_break columns index1 index2 shift values cp in
  let* incb := enum_getitem (KBool name) in
  Ok (match incb with None_ => None | _ => Some incb end).

End Incb.
End IndicConjunctBreakM.


(* ------------------------------------------------------------------------- *)
(** * The property accessors of graphemecluster.py, wordbreak.py and linebreak.py *)

Module Accessors.

(** [str.upper()] on the ASCII letters; the property names stored in the
    tables are ASCII. *)
Definition ascii_upper (a : Ascii.ascii) : Ascii.ascii :=
  let n := Ascii.nat_of_ascii a in
  if (97 <=? n)%nat && (n <=? 122)%nat then Ascii.ascii_of_nat (n - 32) else a.

Fixpoint py_upper (s : string) : string :=
  match s with
  | EmptyString => EmptyString
  | String a rest => String (ascii_upper a) (py_upper rest)
  end.

(** [E[name]] of an [Enum]: the lookup of a member by its name in
    [_member_map_]; [KeyError] for any other name. *)
Definition enum_lookup {E : Type} (members : list (string * E)) (name : string) : result E :=
  match find (fun p => String.eqb (fst p) name) members with
  | Some (_, m) => Ok m
  | None => Err KeyError
  end.

Inductive GraphemeClusterBreak : Type :=
| OTHER | CR | LF | CONTROL | EXTEND | ZWJ | REGIONAL_INDICATOR | PREPEND
| SPACINGMARK | L | V | T | LV | LVT.

(** The members of [GraphemeClusterBreak]: their names and their values. *)
Definition GraphemeClusterBreak_members : list (string * GraphemeClusterBreak) :=
  [("OTHER", OTHER); ("CR", CR); ("LF", LF); ("CONTROL", CONTROL);
   ("EXTEND", EXTEND); ("ZWJ", ZWJ); ("REGIONAL_INDICATOR", REGIONAL_INDICATOR);
   ("PREPEND", PREPEND); ("SPACINGMARK", SPACINGMARK); ("L", L); ("V", V);
   ("T", T); ("LV", LV); ("LVT", LVT)]%string.

Definition GraphemeClusterBreak_value (m : GraphemeClusterBreak) : string :=
  match m with
  | OTHER => "Other" | CR => "CR" | LF => "LF" | CONTROL => "Control"
  | EXTEND => "Extend" | ZWJ => "ZWJ" | REGIONAL_INDICATOR => "Regional_Indicator"
  | PREPEND => "Prepend" | SPACINGMARK => "SpacingMark" | L => "L" | V => "V"
  | T => "T" | LV => "LV" | LVT => "LVT"
  end%string.

Import WordBreakM.

Definition WordBreak_members : list (string * WordBreak) :=
  [("OTHER", OTHER); ("CR", WordBreakM.CR); ("LF", WordBreakM.LF);
   ("NEWLINE", NEWLINE); ("EXTEND", WordBreakM.EXTEND); ("ZWJ", WordBreakM.ZWJ);
   ("REGIONAL_INDICATOR", WordBreakM.REGIONAL_INDICATOR); ("FORMAT", FORMAT);
   ("KATAKANA", KATAKANA); ("HEBREW_LETTER", HEBREW_LETTER); ("ALETTER", ALETTER);
   ("SINGLE_QUOTE", SINGLE_QUOTE); ("DOUBLE_QUOTE", DOUBLE_QUOTE);
   ("MIDNUMLET", MIDNUMLET); ("MIDLETTER", MIDLETTER); ("MIDNUM", MIDNUM);
   ("NUMERIC", NUMERIC); ("EXTENDNUMLET", EXTENDNUMLET); ("WSEGSPACE", WSEGSPACE)]%string.

Definition WordBreak_value (m : WordBreak) : string :=
  match m with
  | WordBreakM.OTHER => "Other" | WordBreakM.CR => "CR" | WordBreakM.LF => "LF"
  | NEWLINE => "Newline" | WordBreakM.EXTEND => "Extend" | WordBreakM.ZWJ => "ZWJ"
  | WordBreakM.REGIONAL_INDICATOR => "Regional_Indicator" | FORMAT => "Format"
  | KATAKANA => "Katakana" | HEBREW_LETTER => "Hebrew_Letter" | ALETTER => "ALetter"
  | SINGLE_QUOTE => "Single_Quote" | DOUBLE_QUOTE => "Double_Quote"
  | MIDNUMLET => "MidNumLet" | MIDLETTER => "MidLetter" | MIDNUM => "MidNum"
  | NUMERIC => "Numeric" | EXTENDNUMLET => "ExtendNumLet" | WSEGSPACE => "WSegSpace"
  end%string.

Import LineBreakM.

(** The members of [LineBreak], each named as its value. *)
Definition LineBreak_members : list (string * LineBreak) :=
  [("BK", BK); ("CR", LineBreakM.CR); ("LF", LineBreakM.LF); ("CM", CM); ("NL", NL);
   ("SG", SG); ("WJ", WJ); ("ZW", ZW); ("GL", GL); ("SP", SP); ("ZWJ", LineBreakM.ZWJ);
   ("B2", B2); ("BA", BA); ("BB", BB); ("HY", HY); ("CB", CB); ("CL", CL); ("CP", CP);
   ("EX", EX); ("IN", IN); ("NS", NS); ("OP", OP); ("QU", QU); ("IS", IS); ("NU", NU);
   ("PO", PO); ("PR", PR); ("SY", SY); ("AI", AI); ("AK", AK); ("AL", AL); ("AP", AP);
   ("AS", AS); ("CJ", CJ); ("EB", EB); ("EM", EM); ("H2", H2); ("H3", H3); ("HL", HL);
   ("ID", ID); ("JL", JL); ("JV", JV); ("JT", JT); ("RI", RI); ("SA", SA); ("VF", VF);
   ("VI", VI); ("XX", XX)]%string.

Definition LineBreak_value (m : LineBreak) : string :=
  match find (fun p => if LineBreak_eq_dec (snd p) m then true else false)
             LineBreak_members with
  | Some (n, _) => n
  | None => EmptyString
  end.

Section Accessors.
Variable columns : list string.
Variable index1 index2 : list Z.
Variable shift : Z.
Variable values : list (list string).
(** [uniseg.codepoint.code_point(c, index)], a module outside the sources. *)
Variable code_point : str -> Z -> result Z.

(** [grapheme_cluster_break(ch, index)]:
    [GraphemeClusterBreak[_grapheme_cluster_break(ch[index]).upper()]]. *)
Definition grapheme_cluster_break (ch : str) (index : Z) : result GraphemeClusterBreak :=
  let* c := getitem ch index in
  let* name := Db.grapheme_cluster_break columns index1 index2 shift values c in
  enum_lookup GraphemeClusterBreak_members (py_upper name).

(** [word_break(c, index)]: [WordBreak[_word_break(code_point(c, index)).upper()]]. *)
Definition word_break (c : str) (index : Z) : result WordBreak :=
  let* cp := code_point c index in
  let* name := Db.word_break columns index1 index2 shift values cp in
  enum_lookup WordBreak_members (py_upper name).

(** [line_break(c, index)]: [LineBreak[_line_break(c[index])]]. *)
Definition line_break (c : str) (index : Z) : result LineBreak :=
  let* ch := getitem c index in
  let* name := Db.line_break columns index1 index2 shift values ch in
  enum_lookup LineBreak_members name.

End Accessors.
End Accessors.

(* ------------------------------------------------------------------------- *)
(** * tools/build_db_lookups.py *)

Module Build.

(** [sys.maxsize] on a 64-bit CPython. *)
Definition maxsize : Z := 9223372036854775807.

(** [max(data)]: [ValueError] on an empty sequence. *)
Definition py_max (data : list Z) : result Z :=
  match data with
  | [] => Err ValueError
  | x :: rest => Ok (fold_left Z.max rest x)
  end.

Definition getsize (data : list Z) : result Z :=
  let* maxdata := py_max data in
  if maxdata <? 256 then Ok 1
  else if maxdata <? 65536 then Ok 2
  else Ok 4.

Definition zlist_eqb (a b : list Z) : bool :=
  if list_eq_dec Z.eq_dec a b then true else false.

(** [bincache.get(bin)] on the dict, kept as an association list. *)
Definition cache_get (cache : list (list Z * Z)) (bin : list Z) : option Z :=
  match find (fun p => zlist_eqb (fst p) bin) cache with
  | Some (_, idx) => Some idx
  | None => None
  end.

(** [while n >> 1: n >>= 1; maxshift += 1]; [n] halves at every iteration. *)
Fixpoint maxshift_loop (fuel : nat) (n maxshift : Z) : Z :=
  match fuel with
  | O => maxshift
  | S f =>
      if negb (Z.shiftr n 1 =? 0) then maxshift_loop f (Z.shiftr n 1) (maxshift + 1)
      else maxshift
  end.

(** [for i in range(0, len(t), size): ...] of [splitbins]: the lists [t1],
    [t2] and the cache; [i] grows by [size >= 1], so [len(t)] iterations
    suffice. *)
Fixpoint bins_loop (fuel : nat) (t : list Z) (size shift i : Z)
    (t1 t2 : list Z) (cache : list (list Z * Z)) : list Z * list Z * list (list Z * Z) :=
  match fuel with
  | O => (t1, t2, cache)
  | S f =>
      if i <? len t then
        let bin := slice t i (i + size) in
        match cache_get cache bin with
        | Some index =>
            bins_loop f t size shift (i + size) (t1 ++ [Z.shiftr index shift]) t2 cache
        | None =>
            let index := len t2 in
            bins_loop f t size shift (i + size) (t1 ++ [Z.shiftr index shift])
                      (t2 ++ bin) ((bin, index) :: cache)
        end
      else (t1, t2, cache)
  end.

(** Candidate tables for one [shift]. *)
Definition split_with (t : list Z) (shift : Z) : list Z * list Z :=
  let '(t1, t2, _) := bins_loop (List.length t) t (2 ^ shift) shift 0 [] [] [] in (t1, t2).

(** [for shift in range(maxshift + 1): ...], keeping [best] and [bytes]. *)
Fixpoint shifts_loop (k : nat) (t : list Z) (shift : Z)
    (best : option (list Z * list Z * Z)) (bytes : Z)
    : result (option (list Z * list Z * Z)) :=
  match k with
  | O => Ok best
  | S k' =>
      let '(t1, t2) := split_with t shift in
      let* g1 := getsize t1 in
      let* g2 := getsize t2 in
      let b := len t1 * g1 + len t2 * g2 in
      if b <? bytes then shifts_loop k' t (shift + 1) (Some (t1, t2, shift)) b
      else shifts_loop k' t (shift + 1) best bytes
  end.

Definition splitbins (t : list Z) : result (list Z * list Z * Z) :=
  let n := len t - 1 in
  let maxshift := if n >? 0 then maxshift_loop (Z.to_nat n) n 0 else 0 in
  let* best := shifts_loop (Z.to_nat (maxshift + 1)) t 0 None maxsize in
  match best with
  | Some r => Ok r
  | None => Err UnboundLocalError   (* [best] never assigned *)
  end.

End Build.

(** The script [tools/build_db_lookups.py] as it runs: its statements
    [from ucdtools import iter_code_point_properties], then [main()]. *)
Module BuildScript.

(** The names [tools/ucdtools.py] defines at its top level.  Python puts the
    directory of the script first on [sys.path], so [from ucdtools import ...]
    in [tools/build_db_lookups.py] loads this module. *)
Definition ucdtools_names : list string :=
  ["re"; "Any"; "Iterable"; "Iterator"; "Optional"; "TextIO"; "Union"; "overload";
   "RX_CODE_POINT_RANGE_LITERAL"; "CodePointRange"; "code_point_literal";
   "iter_records"; "group_continuous"]%string.

(** [from module import name]: [ImportError] when the module does not define
    [name]. *)
Definition from_import (names : list string) (name : string) : result unit :=
  if existsb (String.eqb name) names then Ok tt else Err ImportError.

Section Script.
Variable A : Type.
(** [main()], run by [if __name__ == '__main__':] after the imports. *)
Variable main : unit -> result A.

Definition run_script : result A :=
  let* _ := from_import ucdtools_names "iter_code_point_properties" in
  main tt.

End Script.

(** [dict(items).get(cp)]: the value of the last pair of [items] whose key is
    [cp], [None] when there is none. *)
Definition dict_get (items : list (Z * string)) (cp : Z) : option string :=
  fold_left (fun acc kv => if fst kv =? cp then Some (snd kv) else acc) items None.

(** [value = record.fields[0] if record else '']: [record] is the [str] that
    [uniseg.ucdtools.iter_code_point_properties] pairs with a code point, and a
    [str] has no attribute [fields]. *)
Definition named_value (record : option string) : result string :=
  match record with
  | None => Ok ""%string
  | Some r => if String.eqb r "" then Ok ""%string else Err AttributeError
  end.

(** [for cp in range(...): record = item_dict.get(cp); value = ...] of a named
    property: the column of values, over the code points [cps]. *)
Fixpoint named_loop (items : list (Z * string)) (cps : list Z) : result (list string) :=
  match cps with
  | [] => Ok []
  | cp :: rest =>
      let* value := named_value (dict_get items cp) in
      let* col := named_loop items rest in
      Ok (value :: col)
  end.

Definition named_column (items : list (Z * string)) : result (list string) :=
  named_loop items (map Z.of_nat (seq 0 (S (Z.to_nat Db.maxunicode)))).

End BuildScript.

(* ------------------------------------------------------------------------- *)
(** * Auxiliary definitions for the statements below *)

Module Aux.

(** The slices of [s] between consecutive indices of [a :: bnds]:
    [[s[a:b0], s[b0:b1], ...]]. *)
Fixpoint slices_between (s : str) (a : Z) (bnds : list Z) : list str :=
  match bnds with
  | [] => []
  | b :: rest => slice s a b :: slices_between s b rest
  end.

(** A [WordBreak] property table used by the witnesses: CR for U+000D, LF for
    U+000A, ALetter for the letters a-z, Other elsewhere. *)
Definition wb_sample (c : Z) : WordBreakM.WordBreak :=
  if c =? 13 then WordBreakM.CR else if c =? 10 then WordBreakM.LF
  else if (97 <=? c) && (c <=? 122) then WordBreakM.ALETTER else WordBreakM.OTHER.

(** The size [len(t1) * getsize(t1) + len(t2) * getsize(t2)] that
    [splitbins] computes for the candidate tables of one [shift]. *)
Definition table_bytes (t : list Z) (shift : Z) : result Z :=
  let '(t1, t2) := Build.split_with t shift in
  let* g1 := Build.getsize t1 in
  let* g2 := Build.getsize t2 in
  Ok (len t1 * g1 + len t2 * g2).

(** [word_boundaries(s, tailor)] and [words(s, tailor)]: the breakables of
    [word_breakables(s)] are passed through [tailor(s, breakables)] when a
    tailor is given. *)
Definition word_boundaries_tailored (wbf : Z -> WordBreakM.WordBreak) (epf : Z -> bool)
    (tailor : option (str -> list Z -> list Z)) (s : str) : result (list Z) :=
  let* breakables := WordBreakM.word_breakables wbf epf s in
  let breakables := match tailor with Some f => f s breakables | None => breakables end in
  Ok (Breaking.boundaries breakables).

Definition words_tailored (wbf : Z -> WordBreakM.WordBreak) (epf : Z -> bool)
    (tailor : option (str -> list Z -> list Z)) (s : str) : result (list str) :=
  let* breakables := WordBreakM.word_breakables wbf epf s in
  let breakables := match tailor with Some f => f s breakables | None => breakables end in
  Ok (Breaking.break_units s breakables).

End Aux.


(* ========================================================================= *)
(** * Proofs *)
(* ========================================================================= *)

Module RunFacts.
Import RunCursor.

Section Facts.
Variable T : Type.
Variable T_eqb : T -> T -> bool.

Lemma in_skip_nil (r : Run T) (i : Z) : run_skip r = [] -> in_skip T T_eqb r i = false.
Proof.
  intros H. unfold in_skip. rewrite H. destruct (nth_error _ _); reflexivity.
Qed.

Lemma calc_position_plus1 (r : Run T) :
  run_skip r = [] -> calc_position T T_eqb r 1 false = run_position r + 1.
Proof.
  intros H. unfold calc_position. simpl. rewrite (in_skip_nil r _ H).
  rewrite !andb_false_r. reflexivity.
Qed.

Lemma walk_plus1 (r : Run T) :
  run_condition r = true -> run_skip r = [] -> 0 <= run_position r ->
  walk T T_eqb r 1 false =
    if len (run_text r) <=? run_position r + 1
    then (false, set_position_condition r (len (run_text r) - 1) false)
    else (true, set_position_condition r (run_position r + 1) true).
Proof.
  intros Hc Hs Hp. unfold walk. rewrite Hc, (calc_position_plus1 r Hs).
  destruct (run_position r + 1 <? 0) eqn:E; [apply Z.ltb_lt in E; lia|]. reflexivity.
Qed.

Lemma walk_text (r : Run T) (off : Z) (ns : bool) :
  run_text (snd (walk T T_eqb r off ns)) = run_text r
  /\ run_skip (snd (walk T T_eqb r off ns)) = run_skip r.
Proof.
  unfold walk. destruct (run_condition r); [|auto].
  destruct (_ <? 0); [simpl; auto|]. destruct (_ <=? _); simpl; auto.
Qed.

Lemma write_if_unknown_text (r r' : Run T) (b : Breakable) :
  write_if_unknown r b = Ok r' -> run_text r' = run_text r /\ run_skip r' = run_skip r.
Proof.
  unfold write_if_unknown. destruct (run_text r) eqn:Et.
  - intros H; inversion H; subst; auto.
  - destruct (getitem _ _) as [[cur|]|e]; simpl; [intros H; inversion H; subst; auto| |discriminate].
    destruct (setitem _ _ _); simpl; [|discriminate]. intros H; inversion H; subst. simpl. auto.
Qed.

Lemma while_walk_text (body : Run T -> result (Run T)) :
  (forall r r', body r = Ok r' -> run_text r' = run_text r /\ run_skip r' = run_skip r) ->
  forall fuel r r', while_walk T T_eqb fuel body r = Ok r' ->
  run_text r' = run_text r /\ run_skip r' = run_skip r.
Proof.
  intros Hb. induction fuel as [|f IH]; intros r r' H; simpl in H.
  - inversion H; auto.
  - destruct (walk T T_eqb r 1 false) as [ok r1] eqn:Ew.
    pose proof (walk_text r 1 false) as [Ht Hs]. rewrite Ew in Ht, Hs. simpl in Ht, Hs.
    destruct ok.
    + destruct (body r1) as [r2|e] eqn:Eb; simpl in H; [|discriminate].
      destruct (Hb _ _ Eb) as [Ht2 Hs2]. destruct (IH _ _ H) as [Ht3 Hs3].
      split; congruence.
    + inversion H; subst; auto.
Qed.

End Facts.
End RunFacts.

Module EngineFacts.
Import RunCursor.

(** Case analysis on every [let*] of a goal [m <> Ok b] whose last statement raises. *)
Ltac bind_cases :=
  repeat match goal with
  | |- context[Py.bind ?m _] => destruct m as [[]|] || destruct m; cbn [Py.bind]
  end;
  unfold getattr_missing; discriminate.

Lemma incb_body_raises (r : Run Grapheme.pyval) : Grapheme.incb_body r = Err TypeError.
Proof. reflexivity. Qed.

(** Every call of the grapheme engine on a non-empty string raises [TypeError]. *)
Lemma grapheme_cluster_breakables_raises (incb : Z -> bool) (s : str) :
  s <> [] -> Grapheme.grapheme_cluster_breakables incb s = Err TypeError.
Proof.
  intros Hs. destruct s as [|c rest]; [congruence|].
  unfold Grapheme.grapheme_cluster_breakables.
  cbn [List.length while_walk].
  rewrite RunFacts.walk_plus1 by reflexivity. cbn [run_position Run_new run_text].
  destruct (len (c :: rest) <=? 0 + 1); simpl; [reflexivity|].
  try rewrite incb_body_raises; reflexivity.
Qed.

Lemma lb_pass1_body_text (lbf : Z -> LineBreakM.LineBreak) (cat : Z -> string) r r' :
  LineBreakM.lb_pass1_body r = Ok r' -> run_text r' = run_text r /\ run_skip r' = run_skip r.
Proof.
  unfold LineBreakM.lb_pass1_body, break_here, do_not_break_here.
  repeat match goal with
  | |- context[if ?c then _ else _] => destruct c
  end; simpl; try discriminate;
  try (intros H; inversion H; subst; auto; fail);
  apply RunFacts.write_if_unknown_text.
Qed.

(** The line engine never returns a breakable vector for a non-empty string. *)
Lemma line_break_breakables_raises (lbf : Z -> LineBreakM.LineBreak) (cat : Z -> string)
    (s : str) (legacy : bool) (b : list Z) :
  s <> [] -> LineBreakM.line_break_breakables lbf cat s legacy <> Ok b.
Proof.
  intros Hs. destruct s as [|c rest]; [congruence|].
  unfold LineBreakM.line_break_breakables. cbn iota.
  bind_cases.
Qed.

(** The sentence engine never returns a breakable vector. *)
Lemma sentence_breakables_raises (sbf : Z -> SentenceBreakM.SentenceBreak) (s : str) (b : list Z) :
  SentenceBreakM.sentence_breakables sbf s <> Ok b.
Proof.
  unfold SentenceBreakM.sentence_breakables. bind_cases.
Qed.

End EngineFacts.

Module BreakingFacts.
Import Breaking.

Example boundaries_doc1 : boundaries [1; 1; 1] = [0; 1; 2; 3].
Proof. reflexivity. Qed.
Example boundaries_doc2 : boundaries [1; 0; 1] = [0; 2; 3].
Proof. reflexivity. Qed.
Example boundaries_doc3 : boundaries [0; 1; 0] = [1; 3].
Proof. reflexivity. Qed.
Example boundaries_doc4 : boundaries [] = [].
Proof. reflexivity. Qed.
Example break_units_doc1 : break_units [65; 66; 67] [1; 1; 1] = [[65]; [66]; [67]].
Proof. reflexivity. Qed.
Example break_units_doc2 : break_units [65; 66; 67] [1; 0; 1] = [[65; 66]; [67]].
Proof. reflexivity. Qed.
Example break_units_doc3 : break_units [65; 66; 67] [1; 0; 0] = [[65; 66; 67]].
Proof. reflexivity. Qed.


Lemma slice_bound_id (n i : Z) : 0 <= i <= n -> slice_bound n i = i.
Proof.
  intros H. unfold slice_bound.
  destruct (i <? 0) eqn:E; [apply Z.ltb_lt in E; lia|].
  apply Z.min_l; lia.
Qed.

Lemma firstn_skipn_mid {A : Type} (s : list A) (a b : nat) :
  (a <= b)%nat -> firstn (b - a) (skipn a s) ++ skipn b s = skipn a s.
Proof.
  intros H. replace (skipn b s) with (skipn (b - a) (skipn a s)).
  - apply firstn_skipn.
  - rewrite skipn_skipn. f_equal. lia.
Qed.

Lemma slice_app (s : str) (i j : Z) :
  0 <= i <= j -> j <= len s -> slice s i j ++ slice_from s j = slice_from s i.
Proof.
  intros H1 H2. unfold slice, slice_from.
  rewrite !slice_bound_id by lia.
  apply firstn_skipn_mid. lia.
Qed.

Lemma slice_from_0 (s : str) : slice_from s 0 = s.
Proof. unfold slice_from. rewrite slice_bound_id by (unfold len; lia). reflexivity. Qed.

Lemma slice_nonempty (s : str) (i j : Z) :
  0 <= i < j -> j <= len s -> slice s i j <> [].
Proof.
  intros H1 H2 E. unfold slice in E. rewrite !slice_bound_id in E by lia.
  apply (f_equal (@List.length Z)) in E.
  rewrite length_firstn, length_skipn in E. unfold len in H2. simpl in E. lia.
Qed.

Lemma slice_from_nonempty (s : str) (i : Z) :
  0 <= i < len s -> slice_from s i <> [].
Proof.
  intros H E. unfold slice_from in E. rewrite slice_bound_id in E by lia.
  apply (f_equal (@List.length Z)) in E.
  rewrite length_skipn in E. unfold len in H. simpl in E. lia.
Qed.

(** [t] occurs contiguously in [s]. *)
Definition substring_of (s t : str) : Prop := exists pre post, s = pre ++ t ++ post.

Lemma slice_substring (s : str) (i j : Z) :
  0 <= i <= j -> j <= len s -> substring_of s (slice s i j).
Proof.
  intros H1 H2. exists (firstn (Z.to_nat i) s), (slice_from s j).
  rewrite slice_app by lia. unfold slice_from. rewrite slice_bound_id by lia.
  symmetry. apply firstn_skipn.
Qed.

Lemma slice_from_substring (s : str) (i : Z) :
  0 <= i <= len s -> substring_of s (slice_from s i).
Proof.
  intros H. exists (firstn (Z.to_nat i) s), [].
  rewrite app_nil_r. unfold slice_from. rewrite slice_bound_id by lia.
  symmetry. apply firstn_skipn.
Qed.

Lemma break_units_loop_spec (s : str) : forall bs j i,
  0 <= i <= j -> (j = 0 \/ i < j) -> j + len bs = len s ->
  let r := break_units_loop s j i bs in
  List.concat (fst r) ++ slice_from s (snd r) = slice_from s i
  /\ (snd r = i \/ (j <= snd r /\ snd r < len s))
  /\ Forall (fun t => t <> [] /\ substring_of s t) (fst r).
Proof.
  unfold len. induction bs as [|bk bs IH]; intros j i H1 H2 H3; simpl.
  - split; [reflexivity|]. split; [left; reflexivity|constructor].
  - simpl in H3. destruct (truthy bk).
    + destruct (break_units_loop s (j + 1) j bs) as [ys i'] eqn:E.
      specialize (IH (j + 1) j ltac:(lia) ltac:(lia) ltac:(lia)).
      rewrite E in IH. simpl in IH. destruct IH as [IHc [IHi IHf]].
      destruct (j =? 0) eqn:Ej.
      * apply Z.eqb_eq in Ej. subst j. assert (i = 0) by lia. subst i.
        simpl. split; [exact IHc|]. split; [|exact IHf].
        destruct IHi as [IHi|IHi]; [left; exact IHi|right; lia].
      * apply Z.eqb_neq in Ej. simpl.
        split.
        { rewrite <- app_assoc, IHc. apply slice_app; unfold len; lia. }
        split.
        { right. destruct IHi as [IHi|IHi]; lia. }
        constructor; [|exact IHf]. split.
        { apply slice_nonempty; unfold len; lia. }
        { apply slice_substring; unfold len; lia. }
    + specialize (IH (j + 1) i ltac:(lia) ltac:(lia) ltac:(lia)).
      destruct IH as [IHc [IHi IHf]].
      split; [exact IHc|]. split; [|exact IHf].
      destruct IHi as [IHi|IHi]; [left; exact IHi|right; lia].
Qed.

Lemma break_units_concat (s : str) (bs : list Z) :
  List.length bs = List.length s -> List.concat (break_units s bs) = s.
Proof.
  intros H. unfold break_units.
  pose proof (break_units_loop_spec s bs 0 0 ltac:(lia) ltac:(lia) ltac:(unfold len; lia)) as Hs.
  destruct (break_units_loop s 0 0 bs) as [ys i] eqn:E. simpl in Hs.
  destruct Hs as [Hc _]. rewrite slice_from_0 in Hc.
  destruct s as [|c s'].
  - destruct bs; [|discriminate]. simpl in E. inversion E. reflexivity.
  - rewrite List.concat_app. simpl. rewrite app_nil_r. exact Hc.
Qed.

Lemma break_units_tokens (s : str) (bs : list Z) :
  List.length bs = List.length s ->
  Forall (fun t => t <> [] /\ substring_of s t) (break_units s bs)
  /\ (s <> [] -> break_units s bs <> []).
Proof.
  intros H. unfold break_units.
  pose proof (break_units_loop_spec s bs 0 0 ltac:(lia) ltac:(lia) ltac:(unfold len; lia)) as Hs.
  destruct (break_units_loop s 0 0 bs) as [ys i] eqn:E. simpl in Hs.
  destruct Hs as [_ [Hi Hf]].
  destruct s as [|c s'].
  - split; [exact Hf|]. intros C; congruence.
  - assert (Hi' : 0 <= i < len (c :: s')) by (unfold len in *; simpl in *; lia).
    split.
    + apply Forall_app. split; [exact Hf|].
      constructor; [|constructor]. split.
      * apply slice_from_nonempty; exact Hi'.
      * apply slice_from_substring; lia.
    + intros _ C. destruct ys; discriminate.
Qed.

Lemma SSorted_app (l1 l2 : list Z) :
  StronglySorted Z.lt l1 -> StronglySorted Z.lt l2 ->
  (forall x y, In x l1 -> In y l2 -> x < y) -> StronglySorted Z.lt (l1 ++ l2).
Proof.
  induction l1 as [|a l1 IH]; intros H1 H2 H; simpl; [exact H2|].
  inversion H1; subst. constructor.
  - apply IH; auto. intros x y Hx Hy. apply H; simpl; auto.
  - apply Forall_app. split; [assumption|].
    apply Forall_forall. intros y Hy. apply H; simpl; auto.
Qed.

Lemma boundaries_loop_spec : forall bs i last,
  let r := boundaries_loop i bs last in
  Forall (fun x => i <= x < i + len bs) (fst r)
  /\ StronglySorted Z.lt (fst r)
  /\ snd r = match bs with [] => last | _ => Some (i + len bs - 1) end
  /\ (forall bk rest, bs = bk :: rest ->
        (truthy bk = true -> hd_error (fst r) = Some i)
        /\ (truthy bk = false -> Forall (fun x => i + 1 <= x) (fst r))).
Proof.
  unfold len. induction bs as [|bk bs IH]; intros i last; simpl.
  - split; [constructor|]. split; [constructor|]. split; [reflexivity|].
    intros bk rest C; discriminate.
  - destruct (boundaries_loop (i + 1) bs (Some i)) as [ys l] eqn:E.
    destruct (IH (i + 1) (Some i)) as [Hr [Hs [Hl _]]]. rewrite E in Hr, Hs, Hl.
    simpl in Hr, Hs, Hl. simpl.
    assert (Hr' : Forall (fun x => i <= x < i + Z.of_nat (S (List.length bs))) ys).
    { eapply Forall_impl; [|exact Hr]. simpl. intros x Hx. lia. }
    split; [|split; [|split]].
    + destruct (truthy bk); simpl; [constructor; [lia|]|]; exact Hr'.
    + destruct (truthy bk); simpl; [|exact Hs].
      constructor; [exact Hs|]. eapply Forall_impl; [|exact Hr]. simpl. intros x Hx. lia.
    + rewrite Hl. destruct bs; simpl; f_equal; lia.
    + intros bk' rest Heq. inversion Heq; subst bk' rest. split; intros Ht; rewrite Ht.
      * reflexivity.
      * simpl. eapply Forall_impl; [|exact Hr]. simpl. intros x Hx. lia.
Qed.

Lemma boundaries_spec (bs : list Z) :
  StronglySorted Z.lt (boundaries bs)
  /\ Forall (fun x => 0 <= x <= len bs) (boundaries bs)
  /\ (bs = [] -> boundaries bs = [])
  /\ (bs <> [] -> last (boundaries bs) (-1) = len bs)
  /\ (forall bk rest, bs = bk :: rest ->
        (hd_error (boundaries bs) = Some 0 <-> truthy bk = true)).
Proof.
  unfold boundaries.
  destruct (boundaries_loop_spec bs 0 None) as [Hr [Hs [Hl Hh]]].
  destruct (boundaries_loop 0 bs None) as [ys l] eqn:E. simpl in Hr, Hs, Hl.
  destruct bs as [|bk rest].
  - subst l. destruct ys as [|y ys]; [|inversion Hr; unfold len in *; simpl in *; lia].
    split; [constructor|]. split; [constructor|]. split; [reflexivity|].
    split; [intros C; congruence|]. intros bk rest C; discriminate.
  - subst l. simpl in Hh.
    assert (HL : 1 <= len (bk :: rest)) by (unfold len; cbn [List.length]; lia).
    remember (len (bk :: rest)) as n eqn:En.
    split; [|split; [|split; [|split]]].
    + apply SSorted_app; [exact Hs| repeat constructor |].
      intros x y Hx Hy. destruct Hy as [Hy|[]]. subst y.
      rewrite Forall_forall in Hr. specialize (Hr x Hx). lia.
    + apply Forall_app. split.
      * eapply Forall_impl; [|exact Hr]. simpl. intros x Hx. lia.
      * constructor; [lia|constructor].
    + intros C; discriminate.
    + intros _. rewrite last_last. lia.
    + intros bk' rest' Heq. inversion Heq; subst bk' rest'.
      destruct (Hh bk rest eq_refl) as [Ht Hf].
      destruct (truthy bk) eqn:Eb.
      * split; [reflexivity|]. intros _. specialize (Ht eq_refl). destruct ys; simpl in *; congruence.
      * split; [|discriminate]. intros H0. specialize (Hf eq_refl).
        destruct ys as [|y ys']; cbn [hd_error app] in H0.
        { injection H0 as H2. lia. }
        { inversion H0; subst y. inversion Hf. lia. }
Qed.

End BreakingFacts.

(* ------------------------------------------------------------------------- *)
(** ** The two-stage tables of [splitbins] *)

Module BuildFacts.
Import Build.

Lemma len_app {A : Type} (l1 l2 : list A) : len (l1 ++ l2) = len l1 + len l2.
Proof. unfold len. rewrite length_app. lia. Qed.

Lemma len_single {A : Type} (x : A) : len [x] = 1.
Proof. reflexivity. Qed.

Lemma len_nonneg {A : Type} (l : list A) : 0 <= len l.
Proof. unfold len. lia. Qed.

Lemma zat_app_l {A : Type} (l1 l2 : list A) x v :
  zat l1 x = Some v -> zat (l1 ++ l2) x = Some v.
Proof.
  unfold zat. destruct (0 <=? x); [|discriminate]. intros H.
  rewrite nth_error_app1; [exact H|]. apply nth_error_Some. congruence.
Qed.

Lemma zat_app_lt {A : Type} (l1 l2 : list A) x :
  0 <= x < len l1 -> zat (l1 ++ l2) x = zat l1 x.
Proof.
  unfold zat, len. intros Hx. destruct (Z.leb_spec 0 x); [|lia].
  apply nth_error_app1. lia.
Qed.

Lemma zat_app_r {A : Type} (l1 l2 : list A) r :
  0 <= r -> zat (l1 ++ l2) (len l1 + r) = zat l2 r.
Proof.
  intros Hr. unfold zat, len.
  destruct (Z.leb_spec 0 (Z.of_nat (List.length l1) + r)); [|lia].
  destruct (Z.leb_spec 0 r); [|lia].
  rewrite nth_error_app2 by lia. f_equal. lia.
Qed.

Lemma zat_lt {A : Type} (l : list A) x v : zat l x = Some v -> 0 <= x < len l.
Proof.
  unfold zat, len. destruct (Z.leb_spec 0 x); [|discriminate]. intros Hv.
  assert (Z.to_nat x < List.length l)%nat by (apply nth_error_Some; congruence).
  lia.
Qed.

Lemma zat_in_range {A : Type} (l : list A) x :
  0 <= x < len l -> exists v, zat l x = Some v.
Proof.
  unfold zat, len. intros Hx. destruct (Z.leb_spec 0 x); [|lia].
  destruct (nth_error l (Z.to_nat x)) eqn:E; [eauto|].
  apply nth_error_None in E. lia.
Qed.

Lemma getitem_zat {A : Type} (l : list A) x :
  0 <= x -> getitem l x = match zat l x with Some v => Ok v | None => Err IndexError end.
Proof.
  intros Hx. unfold getitem, zat, len.
  destruct (Z.ltb_spec x 0); [lia|]. destruct (Z.leb_spec 0 x); [|lia].
  destruct (Z.ltb_spec x (Z.of_nat (List.length l))); simpl.
  - reflexivity.
  - destruct (nth_error l (Z.to_nat x)) eqn:E; [|reflexivity].
    assert (Z.to_nat x < List.length l)%nat by (apply nth_error_Some; congruence).
    lia.
Qed.

(** The window [t[i:i+size]] of a list. *)
Lemma slice_window (t : list Z) i size :
  0 <= i <= len t -> 0 <= size ->
  len (slice t i (i + size)) = Z.min size (len t - i) /\
  forall r, 0 <= r < len (slice t i (i + size)) ->
    zat (slice t i (i + size)) r = zat t (i + r).
Proof.
  unfold slice, slice_bound. intros Hi Hs.
  destruct (Z.ltb_spec i 0); [lia|]. destruct (Z.ltb_spec (i + size) 0); [lia|].
  rewrite (Z.min_l i) by lia.
  assert (Hl : len (firstn (Z.to_nat (Z.min (i + size) (len t)) - Z.to_nat i)
                      (skipn (Z.to_nat i) t)) = Z.min size (len t - i)).
  { unfold len in *. rewrite length_firstn, length_skipn. lia. }
  split; [exact Hl|]. rewrite Hl. intros r Hr. unfold zat.
  destruct (Z.leb_spec 0 r); [|lia]. destruct (Z.leb_spec 0 (i + r)); [|lia].
  rewrite nth_error_firstn, nth_error_skipn.
  destruct (Nat.ltb_spec (Z.to_nat r) (Z.to_nat (Z.min (i + size) (len t)) - Z.to_nat i));
    [|unfold len in *; lia].
  f_equal. lia.
Qed.

Lemma div_block p L j :
  0 < p -> L * p <= j < L * p + p -> j / p = L /\ j mod p = j - L * p.
Proof.
  intros Hp Hj. split.
  - symmetry. apply Z.div_unique with (j - L * p); lia.
  - symmetry. apply Z.mod_unique with L; lia.
Qed.

Lemma cache_get_in cache bin idx :
  cache_get cache bin = Some idx -> In (bin, idx) cache.
Proof.
  unfold cache_get. destruct (find _ cache) as [[b i]|] eqn:E; intros H; [|discriminate].
  injection H as <-. apply find_some in E as [Hin Heq]. simpl in Heq.
  unfold zlist_eqb in Heq. destruct (list_eq_dec Z.eq_dec b bin); [subst; exact Hin|discriminate].
Qed.

Section Bins.
Variable t : list Z.
Variable sh : Z.
Hypothesis Hsh : 0 <= sh.

Lemma pow_pos_sh : 0 < 2 ^ sh.
Proof. apply Z.pow_pos_nonneg; lia. Qed.

(** The invariant of the [for i in range(0, len(t), size)] loop: every
    position already visited is found through [t1] and [t2], every cached bin
    sits at a [size]-aligned offset of [t2], and [t2] is a whole number of bins
    until the last, possibly short, bin. *)
Lemma bins_loop_inv : forall fuel i t1 t2 cache,
  0 <= i -> i = len t1 * 2 ^ sh ->
  (forall j, 0 <= j < Z.min i (len t) -> exists a,
     zat t1 (j / 2 ^ sh) = Some a /\ zat t2 (a * 2 ^ sh + j mod 2 ^ sh) = zat t j) ->
  (forall bin idx, In (bin, idx) cache ->
     0 <= idx /\ idx mod 2 ^ sh = 0 /\ idx + len bin <= len t2 /\
     forall r, 0 <= r < len bin -> zat t2 (idx + r) = zat bin r) ->
  (len t2 mod 2 ^ sh = 0 \/ len t <= i) ->
  len t - i <= Z.of_nat fuel * 2 ^ sh ->
  forall t1' t2' cache', bins_loop fuel t (2 ^ sh) sh i t1 t2 cache = (t1', t2', cache') ->
  forall j, 0 <= j < len t -> exists a,
     zat t1' (j / 2 ^ sh) = Some a /\ zat t2' (a * 2 ^ sh + j mod 2 ^ sh) = zat t j.
Proof.
  pose proof pow_pos_sh as Hp.
  induction fuel as [|f IH]; intros i t1 t2 cache Hi Hi1 Hvis Hcache Hal Hfuel
    t1' t2' cache' Hloop j Hj.
  - simpl in Hloop. injection Hloop as <- <- <-. apply Hvis. lia.
  - simpl in Hloop. destruct (Z.ltb_spec i (len t)) as [Hlt|Hge].
    2: { injection Hloop as <- <- <-. apply Hvis. lia. }
    destruct (slice_window t i (2 ^ sh)) as [Hbl Hbat]; [lia|lia|].
    set (bin := slice t i (i + 2 ^ sh)) in *.
    assert (Hblock : forall j, i <= j < Z.min (i + 2 ^ sh) (len t) ->
              j / 2 ^ sh = len t1 /\ j mod 2 ^ sh = j - i /\
              0 <= j - i < len bin /\ zat bin (j - i) = zat t j).
    { intros j' Hj'. destruct (div_block (2 ^ sh) (len t1) j') as [Hd Hm]; [lia|lia|].
      assert (0 <= j' - i < len bin) by lia.
      repeat split; try lia. rewrite Hbat by lia. f_equal. lia. }
    destruct (cache_get cache bin) as [idx|] eqn:Hc;
      rewrite (Z.shiftr_div_pow2 _ _ Hsh) in Hloop.
    + apply cache_get_in in Hc. destruct (Hcache _ _ Hc) as (Hidx0 & Hidxm & Hidxl & Hidxat).
      pose proof (Z.div_mod idx (2 ^ sh) ltac:(lia)) as Hdm.
      eapply (IH (i + 2 ^ sh) (t1 ++ [idx / 2 ^ sh]) t2 cache); try eassumption; try lia.
      * rewrite len_app. unfold len at 2. simpl. lia.
      * intros j' Hj'. destruct (Z.ltb_spec j' i).
        -- destruct (Hvis j') as (a & Ha1 & Ha2); [lia|].
           exists a. split; [apply zat_app_l; exact Ha1|exact Ha2].
        -- destruct (Hblock j') as (Hd & Hm & Hr & Hb); [lia|].
           exists (idx / 2 ^ sh). rewrite Hd, Hm.
           split.
           ++ rewrite <- (Z.add_0_r (len t1)), zat_app_r by lia. reflexivity.
           ++ replace (idx / 2 ^ sh * 2 ^ sh + (j' - i)) with (idx + (j' - i)) by lia.
              rewrite Hidxat by lia. exact Hb.
    + assert (Hal0 : len t2 mod 2 ^ sh = 0) by (destruct Hal; [assumption|lia]).
      pose proof (Z.div_mod (len t2) (2 ^ sh) ltac:(lia)) as Hdm.
      eapply (IH (i + 2 ^ sh) (t1 ++ [len t2 / 2 ^ sh]) (t2 ++ bin) ((bin, len t2) :: cache));
        try eassumption; try lia.
      * rewrite len_app. unfold len at 2. simpl. lia.
      * intros j' Hj'. destruct (Z.ltb_spec j' i).
        -- destruct (Hvis j') as (a & Ha1 & Ha2); [lia|].
           destruct (zat_in_range t j') as [v Hv]; [lia|].
           exists a. split; [apply zat_app_l; exact Ha1|].
           rewrite Hv in Ha2 |- *. apply zat_app_l. exact Ha2.
        -- destruct (Hblock j') as (Hd & Hm & Hr & Hb); [lia|].
           exists (len t2 / 2 ^ sh). rewrite Hd, Hm.
           split.
           ++ rewrite <- (Z.add_0_r (len t1)), zat_app_r by lia. reflexivity.
           ++ replace (len t2 / 2 ^ sh * 2 ^ sh + (j' - i)) with (len t2 + (j' - i)) by lia.
              rewrite zat_app_r by lia. exact Hb.
      * intros bin' idx' [Heq|Hin].
        -- injection Heq as <- <-. rewrite len_app. pose proof (len_nonneg t2).
           repeat split; try lia.
           intros r Hr. apply zat_app_r. lia.
        -- destruct (Hcache _ _ Hin) as (H0 & Hm & Hl & Hat).
           rewrite len_app. pose proof (len_nonneg bin).
           repeat split; try lia.
           intros r Hr. rewrite zat_app_lt by lia. apply Hat. exact Hr.
      * rewrite len_app. destruct (Z.leb_spec (2 ^ sh) (len t - i)).
        -- left. rewrite Hbl, Z.min_l by lia.
           replace (len t2 + 2 ^ sh) with (len t2 + 1 * 2 ^ sh) by lia.
           rewrite Z_mod_plus_full. exact Hal0.
        -- right. lia.
Qed.

Lemma bins_loop_len : forall fuel i t1 t2 cache t1' t2' cache',
  0 <= i -> len t2 <= Z.min i (len t) ->
  bins_loop fuel t (2 ^ sh) sh i t1 t2 cache = (t1', t2', cache') ->
  len t1' <= len t1 + Z.of_nat fuel /\ len t1 <= len t1' /\
  len t2 <= len t2' /\ len t2' <= len t.
Proof.
  pose proof pow_pos_sh as Hp.
  induction fuel as [|f IH]; intros i t1 t2 cache t1' t2' cache' Hi H2 Hloop.
  - simpl in Hloop. injection Hloop as <- <- <-. lia.
  - simpl in Hloop. destruct (Z.ltb_spec i (len t)) as [Hlt|Hge].
    2: { injection Hloop as <- <- <-. lia. }
    destruct (slice_window t i (2 ^ sh)) as [Hbl _]; [lia|lia|].
    set (bin := slice t i (i + 2 ^ sh)) in *.
    destruct (cache_get cache bin) as [idx|].
    + destruct (IH (i + 2 ^ sh) _ t2 _ _ _ _ ltac:(lia) ltac:(lia) Hloop) as (A1 & A2 & A3 & A4).
      rewrite len_app, len_single in A1, A2. lia.
    + assert (Hb : len (t2 ++ bin) <= Z.min (i + 2 ^ sh) (len t)) by (rewrite len_app; lia).
      destruct (IH (i + 2 ^ sh) _ _ _ _ _ _ ltac:(lia) Hb Hloop) as (A1 & A2 & A3 & A4).
      rewrite len_app in A1, A2, A3. rewrite len_single in A1, A2.
      pose proof (len_nonneg bin). lia.
Qed.

(** The candidate tables for one shift reconstruct [t]. *)
Lemma split_with_spec : forall j, 0 <= j < len t -> exists a,
  zat (fst (split_with t sh)) (j / 2 ^ sh) = Some a /\
  zat (snd (split_with t sh)) (a * 2 ^ sh + j mod 2 ^ sh) = zat t j.
Proof.
  pose proof pow_pos_sh as Hp. intros j Hj. unfold split_with.
  destruct (bins_loop (List.length t) t (2 ^ sh) sh 0 [] [] []) as [[t1 t2] c] eqn:E.
  simpl. eapply (bins_loop_inv (List.length t) 0 [] [] []); try eassumption.
  - lia.
  - reflexivity.
  - intros j' Hj'. pose proof (len_nonneg t). lia.
  - intros bin idx [].
  - left. reflexivity.
  - unfold len. nia.
Qed.

Lemma split_with_nonempty : t <> [] -> forall t1 t2, split_with t sh = (t1, t2) ->
  t1 <> [] /\ t2 <> [] /\ len t1 <= len t /\ len t2 <= len t.
Proof.
  pose proof pow_pos_sh as Hp. intros Hne t1 t2 E. unfold split_with in E.
  assert (Hlt : 0 < len t) by (destruct t; [contradiction|unfold len; simpl; lia]).
  destruct (List.length t) as [|n] eqn:El; [unfold len in Hlt; lia|].
  cbn [bins_loop] in E.
  destruct (Z.ltb_spec 0 (len t)); [|lia].
  cbn [cache_get find] in E.
  destruct (bins_loop n t (2 ^ sh) sh (0 + 2 ^ sh) _ _ _) as [[u1 u2] c] eqn:E2.
  injection E as <- <-.
  destruct (slice_window t 0 (2 ^ sh)) as [Hbl _]; [lia|lia|].
  assert (Hb : len (slice t 0 (0 + 2 ^ sh)) <= Z.min (0 + 2 ^ sh) (len t))
    by (rewrite Hbl; lia).
  destruct (bins_loop_len _ (0 + 2 ^ sh) _ (slice t 0 (0 + 2 ^ sh)) _ _ _ _ ltac:(lia)
    Hb E2) as (A1 & A2 & A3 & A4).
  cbn [app] in A1, A2, A3. rewrite len_single in A1, A2.
  assert (len t = Z.of_nat (S n)) by (unfold len; rewrite El; reflexivity).
  repeat split.
  - intros ->. change (len (@nil Z)) with 0 in A2. lia.
  - intros ->. change (len (@nil Z)) with 0 in A3. lia.
  - lia.
  - exact A4.
Qed.

End Bins.

Lemma getsize_ok (l : list Z) : l <> [] -> exists g, getsize l = Ok g /\ 1 <= g <= 4.
Proof.
  intros Hne. destruct l as [|x rest]; [contradiction|].
  unfold getsize, py_max. cbn [Py.bind].
  destruct (fold_left Z.max rest x <? 256); [eexists; split; [reflexivity|lia]|].
  destruct (fold_left Z.max rest x <? 65536); eexists; split; try reflexivity; lia.
Qed.

Lemma maxshift_loop_ge f n m : m <= maxshift_loop f n m.
Proof.
  revert n m. induction f as [|f IH]; intros n m; simpl; [lia|].
  destruct (negb _); [specialize (IH (Z.shiftr n 1) (m + 1)); lia|lia].
Qed.

(** The table kept by the [for shift in ...] loop is one of the candidates. *)
Lemma shifts_loop_cand k t s best bytes r :
  shifts_loop k t s best bytes = Ok (Some r) ->
  best = Some r \/ exists s', s <= s' /\ r = (fst (split_with t s'), snd (split_with t s'), s').
Proof.
  revert s best bytes. induction k as [|k IH]; intros s best bytes H; cbn [shifts_loop] in H.
  - injection H as ->. left. reflexivity.
  - destruct (split_with t s) as [t1 t2] eqn:Es.
    destruct (getsize t1); cbn [Py.bind] in H; [|discriminate].
    destruct (getsize t2); cbn [Py.bind] in H; [|discriminate].
    destruct (_ <? bytes); apply IH in H as [H|(s' & Hs' & ->)].
    + injection H as <-. right. exists s. rewrite Es. split; [lia|reflexivity].
    + right. exists s'. split; [lia|reflexivity].
    + left. exact H.
    + right. exists s'. split; [lia|reflexivity].
Qed.

Lemma shifts_loop_keep k t s r bytes :
  t <> [] -> 0 <= s -> exists r', shifts_loop k t s (Some r) bytes = Ok (Some r').
Proof.
  intros Hne. revert s r bytes. induction k as [|k IH]; intros s r bytes Hs; cbn [shifts_loop].
  - eauto.
  - destruct (split_with t s) as [t1 t2] eqn:Es.
    destruct (split_with_nonempty t s Hs Hne t1 t2 Es) as (N1 & N2 & _).
    destruct (getsize_ok t1 N1) as (g1 & -> & _).
    destruct (getsize_ok t2 N2) as (g2 & -> & _). cbn [Py.bind].
    destruct (_ <? bytes); apply IH; lia.
Qed.

Lemma two_stage_index sh i a : 0 <= sh ->
  Z.shiftr i sh = i / 2 ^ sh /\
  Z.shiftl a sh + Z.land i (Z.shiftl 1 sh - 1) = a * 2 ^ sh + i mod 2 ^ sh.
Proof.
  intros Hsh. rewrite Z.shiftr_div_pow2, Z.shiftl_mul_pow2, Z.shiftl_1_l by lia.
  split; [reflexivity|].
  replace (2 ^ sh - 1) with (Z.ones sh) by (rewrite Z.ones_equiv; lia).
  rewrite Z.land_ones by lia. reflexivity.
Qed.

(** [splitbins] returns tables from which every element of [t] is read back
    with the lookup of [_find_break]. *)
Lemma splitbins_two_stage (t : list Z) : t <> [] -> 8 * len t < maxsize ->
  exists t1 t2 sh, splitbins t = Ok (t1, t2, sh) /\
    forall i, 0 <= i < len t -> exists a,
      getitem t1 (Z.shiftr i sh) = Ok a /\
      getitem t2 (Z.shiftl a sh + Z.land i (Z.shiftl 1 sh - 1)) = getitem t i.
Proof.
  intros Hne Hsize. unfold splitbins.
  set (maxshift := if len t - 1 >? 0 then maxshift_loop _ _ 0 else 0).
  assert (Hm : 0 <= maxshift).
  { subst maxshift. destruct (_ >? 0); [apply maxshift_loop_ge|lia]. }
  replace (Z.to_nat (maxshift + 1)) with (S (Z.to_nat maxshift)) by lia.
  cbn [shifts_loop].
  destruct (split_with t 0) as [t1 t2] eqn:E0.
  destruct (split_with_nonempty t 0 ltac:(lia) Hne t1 t2 E0) as (N1 & N2 & L1 & L2).
  destruct (getsize_ok t1 N1) as (g1 & -> & G1).
  destruct (getsize_ok t2 N2) as (g2 & -> & G2). cbn [Py.bind].
  destruct (Z.ltb_spec (len t1 * g1 + len t2 * g2) maxsize) as [Hb|Hb].
  2: { pose proof (len_nonneg t1). pose proof (len_nonneg t2). nia. }
  destruct (shifts_loop_keep (Z.to_nat maxshift) t (0 + 1) (t1, t2, 0)
              (len t1 * g1 + len t2 * g2) Hne ltac:(lia)) as (r & Hr).
  rewrite Hr. cbn [Py.bind].
  assert (Hc : exists s, 0 <= s /\ r = (fst (split_with t s), snd (split_with t s), s)).
  { apply shifts_loop_cand in Hr as [Hr|(s' & Hs' & ->)].
    - injection Hr as <-. exists 0. rewrite E0. split; [lia|reflexivity].
    - exists s'. split; [lia|reflexivity]. }
  destruct Hc as (s & Hs & ->).
  do 3 eexists. split; [reflexivity|].
  intros i Hi. destruct (split_with_spec t s Hs i Hi) as (a & Ha1 & Ha2).
  exists a. destruct (two_stage_index s i a Hs) as [-> ->].
  destruct (zat_in_range t i Hi) as (v & Hv).
  rewrite Hv in Ha2. apply zat_lt in Ha2 as Hlt2.
  rewrite !getitem_zat by (try apply Z.div_pos; lia).
  rewrite Ha1, Ha2, Hv. split; reflexivity.
Qed.

End BuildFacts.

(* ------------------------------------------------------------------------- *)
(** ** The word engine *)

Module WordFacts.
Import WordBreakM.

Definition NLTuple : list WordBreak := [NEWLINE; CR; LF].

(** An [Optional[WordBreak]] that is present and not a line terminator. *)
Definition nlfree (o : option WordBreak) : bool :=
  match o with Some x => negb (mem WB_eqb x NLTuple) | None => false end.

(** The value the first pass stores at position [k] when it stores one. *)
Definition pass1_value (vals : list WordBreak) (k : Z) : Z :=
  let p := zat vals (k - 1) in
  let c := zat vals k in
  if opt_is WB_eqb p CR && opt_is WB_eqb c LF then 0
  else if opt_in WB_eqb p NLTuple || opt_in WB_eqb c NLTuple then 1 else 0.

Lemma WB_eqb_eq x y : WB_eqb x y = true -> x = y.
Proof. unfold WB_eqb. destruct (WordBreak_eq_dec x y); congruence. Qed.

Lemma opt_eqb_eq p c : opt_eqb WB_eqb p c = true -> p = c.
Proof.
  destruct p, c; simpl; try discriminate; auto.
  intros H. apply WB_eqb_eq in H. congruence.
Qed.

Lemma length_set_nth {A : Type} (l : list A) n v : List.length (set_nth l n v) = List.length l.
Proof. revert n. induction l as [|x l IH]; intros [|n]; simpl; auto. Qed.

Lemma nth_error_set_nth_0 {A : Type} (l : list A) n v :
  (1 <= n)%nat -> nth_error (set_nth l n v) 0 = nth_error l 0.
Proof. destruct l, n; simpl; auto; lia. Qed.

Section Word.
Variable wbf : Z -> WordBreak.
Variable epf : Z -> bool.

Definition SK : list WordBreak := [EXTEND; FORMAT; ZWJ].

(** The invariant of every pass of [word_breakables(s)]: the text and
    values are those of [s], the breakable list keeps the length of [s] and
    its first entry, and every stored value at a position [k >= 1] is
    [pass1_value (values) k]. *)
Definition WInv (s : str) (r : Runner) : Prop :=
  _text r = s /\ _values r = map wbf s /\ 0 <= _i r /\
  len (_breakables r) = len s /\
  zat (_breakables r) 0 = zat (map (fun _ => 1) s) 0 /\
  Forall (fun kv => 1 <= fst kv /\ snd kv = pass1_value (map wbf s) (fst kv)) (_writes r) /\
  (forall k, 1 <= k < len s -> zat (_breakables r) k = Some 1 \/
     zat (_breakables r) k = Some (pass1_value (map wbf s) k)) /\
  (forall k v, In (k, v) (_writes r) -> zat (_breakables r) k = Some v).

Lemma len_map_wbf (s : str) : len (map wbf s) = len s.
Proof. unfold len. rewrite length_map. reflexivity. Qed.

Lemma at_value_zat s r i : WInv s r -> at_value r i = zat (map wbf s) i.
Proof.
  intros (Ht & Hv & _). unfold at_value, zat. rewrite Ht, Hv.
  destruct (Z.leb_spec 0 i); [|reflexivity].
  destruct (Z.ltb_spec i (len s)); simpl; [reflexivity|].
  symmetry. apply nth_error_None. rewrite length_map. unfold len in *. lia.
Qed.

Lemma curr_zat s r : WInv s r -> curr r = zat (map wbf s) (_i r).
Proof. intros H. unfold curr, value. simpl. apply (at_value_zat s r), H. Qed.

Lemma zat_set_nth_eq {A : Type} (l : list A) i v :
  0 <= i < len l -> zat (set_nth l (Z.to_nat i) v) i = Some v.
Proof.
  unfold zat, len. intros Hi. destruct (Z.leb_spec 0 i); [|lia].
  assert (Hn : (Z.to_nat i < List.length l)%nat) by lia. revert Hn.
  generalize (Z.to_nat i) as n. clear. revert l.
  induction l as [|x l IH]; intros [|n] Hn; simpl in *; try lia; auto.
  apply IH. lia.
Qed.

Lemma zat_set_nth_neq {A : Type} (l : list A) i k v :
  0 <= i -> k <> i -> zat (set_nth l (Z.to_nat i) v) k = zat l k.
Proof.
  unfold zat. intros Hi Hk. destruct (Z.leb_spec 0 k); [|reflexivity].
  assert (Hn : Z.to_nat k <> Z.to_nat i) by lia. revert Hn.
  generalize (Z.to_nat k) (Z.to_nat i). clear. induction l as [|x l IH];
    intros [|a] [|b] Hne; simpl; auto; try congruence.
Qed.

Lemma write_inv s r v : WInv s r -> 1 <= _i r < len s ->
  v = pass1_value (map wbf s) (_i r) ->
  exists r', write r v = Ok r' /\ WInv s r' /\ _i r' = _i r /\ _skip r' = _skip r.
Proof.
  intros (Ht & Hv & Hi & Hl & H0 & Hw & HA & HB) Hr ->. unfold write, setitem.
  destruct (Z.ltb_spec (_i r) 0); [lia|].
  destruct (Z.leb_spec 0 (_i r)); [|lia]. destruct (Z.ltb_spec (_i r) (len (_breakables r))); [|lia].
  cbn [andb Py.bind]. eexists. split; [reflexivity|].
  unfold WInv; cbn [_breakables _text _values _skip _i _writes].
  repeat split; auto.
  - unfold len in *. rewrite length_set_nth. exact Hl.
  - rewrite <- H0. unfold zat. simpl. apply nth_error_set_nth_0. lia.
  - apply Forall_app. split; [exact Hw|]. constructor; [simpl; split; [lia|reflexivity]|constructor].
  - intros k Hk. destruct (Z.eq_dec k (_i r)) as [->|Hne].
    + right. apply zat_set_nth_eq. lia.
    + rewrite zat_set_nth_neq by lia. apply HA, Hk.
  - intros k w Hin. apply in_app_or in Hin as [Hin|[Heq|[]]].
    + destruct (Z.eq_dec k (_i r)) as [->|Hne].
      * rewrite zat_set_nth_eq by lia. f_equal.
        rewrite Forall_forall in Hw. apply Hw in Hin. simpl in Hin. symmetry. apply Hin.
      * rewrite zat_set_nth_neq by lia. apply HB, Hin.
    + injection Heq as <- <-. apply zat_set_nth_eq. lia.
Qed.

Lemma walk_skip_ge fuel r i : i <= walk_skip fuel r i.
Proof.
  revert i. induction fuel as [|f IH]; intros i; simpl; [lia|].
  destruct (_ && _); [specialize (IH (i + 1)); lia|lia].
Qed.

Lemma walk_inv s r : WInv s r ->
  WInv s (snd (walk r)) /\ _skip (snd (walk r)) = _skip r /\
  _i r < _i (snd (walk r)) /\
  (fst (walk r) = true -> 1 <= _i (snd (walk r)) < len s).
Proof.
  intros (Ht & Hv & Hi & Hl & H0 & Hw & HA & HB). unfold walk. cbn [fst snd].
  pose proof (walk_skip_ge (S (List.length (_text r))) r (_i r + 1)).
  unfold set_i, WInv; cbn [_text _values _skip _breakables _i _writes].
  repeat split; auto; try lia.
  all: match goal with H : Z.ltb _ _ = true |- _ => apply Z.ltb_lt in H; rewrite Ht in H |- *; lia end.
Qed.

Lemma head_inv s r : WInv s r -> WInv s (head r).
Proof. intros (Ht & Hv & Hi & Hl & H0 & Hw & HA & HB). unfold WInv; cbn. repeat split; auto; lia. Qed.

Lemma skip_inv s r vs : WInv s r -> WInv s (skip r vs).
Proof. intros (Ht & Hv & Hi & Hl & H0 & Hw & HA & HB). unfold WInv; cbn. repeat split; auto. Qed.

Lemma value_skip_le fuel r i : value_skip fuel r (-1) i <= i.
Proof.
  revert i. induction fuel as [|f IH]; intros i; simpl; [lia|].
  destruct (_ && _); [specialize (IH (i + -1)); lia|lia].
Qed.

(** [run.prev] is read at the nearest position below [_i] whose value is not
    skipped. *)
Lemma prev_at r : exists j, prev r = at_value r j /\ j <= _i r - 1 /\
  (j = _i r - 1 \/ (0 <= _i r - 1 < len (_text r) /\ skipped r (_i r - 1) = true)).
Proof.
  unfold prev, value. simpl.
  exists (value_skip (S (List.length (_text r))) r (-1) (_i r + -1)).
  split; [reflexivity|]. split.
  - pose proof (value_skip_le (S (List.length (_text r))) r (_i r + -1)). lia.
  - cbn [value_skip].
    destruct (Z.leb_spec 0 (_i r + -1)); cbn [andb]; [|left; lia].
    destruct (Z.ltb_spec (_i r + -1) (len (_text r))); cbn [andb]; [|left; lia].
    destruct (skipped r (_i r + -1)) eqn:E; [|left; lia].
    right. replace (_i r - 1) with (_i r + -1) by lia. split; [lia|exact E].
Qed.

Lemma prev_noskip s r : WInv s r -> _skip r = [] -> prev r = zat (map wbf s) (_i r - 1).
Proof.
  intros HI Hs. destruct (prev_at r) as (j & -> & Hj & [->|(_ & Hsk)]).
  - apply (at_value_zat s r), HI.
  - unfold skipped in Hsk. rewrite Hs in Hsk. destruct (nth_error _ _); discriminate.
Qed.

Lemma pass1_value_zero vals k :
  nlfree (zat vals (k - 1)) = true -> nlfree (zat vals k) = true -> pass1_value vals k = 0.
Proof.
  unfold pass1_value.
  destruct (zat vals (k - 1)) as [p|], (zat vals k) as [c|]; try discriminate.
  destruct p; try discriminate; destruct c; try discriminate; reflexivity.
Qed.

Lemma pass1_rest_ok s r : WInv s r -> 1 <= _i r < len s ->
  pass1_value (map wbf s) (_i r) = 0 ->
  exists r', wb_pass1_rest r = Ok r' /\ WInv s r' /\ _i r' = _i r /\ _skip r' = _skip r.
Proof.
  intros HI Hr H0. unfold wb_pass1_rest, do_not_break_here.
  destruct (_ && _); [apply write_inv; auto|].
  destruct (opt_in _ _ _); [apply write_inv; auto|].
  exists r. auto.
Qed.

Lemma pass1_body_ok s r : WInv s r -> _skip r = [] -> 1 <= _i r < len s ->
  exists r', wb_pass1_body epf r = Ok r' /\ WInv s r' /\ _i r' = _i r /\ _skip r' = _skip r.
Proof.
  intros HI Hs Hr.
  pose proof (prev_noskip s r HI Hs) as Hp. pose proof (curr_zat s r HI) as Hc.
  unfold wb_pass1_body, do_not_break_here, break_here. rewrite Hp, Hc.
  set (vals := map wbf s).
  destruct (opt_is WB_eqb (zat vals (_i r - 1)) CR && opt_is WB_eqb (zat vals (_i r)) LF) eqn:E1.
  { apply write_inv; auto. unfold pass1_value. fold vals. rewrite E1. reflexivity. }
  destruct (opt_in WB_eqb (zat vals (_i r - 1)) [NEWLINE; CR; LF]) eqn:E2.
  { apply write_inv; auto. unfold pass1_value, NLTuple. fold vals. rewrite E1, E2. reflexivity. }
  destruct (opt_in WB_eqb (zat vals (_i r)) [NEWLINE; CR; LF]) eqn:E3.
  { apply write_inv; auto. unfold pass1_value, NLTuple. fold vals. rewrite E1, E2, E3. reflexivity. }
  assert (H0 : pass1_value vals (_i r) = 0)
    by (unfold pass1_value, NLTuple; fold vals; rewrite E1, E2, E3; reflexivity).
  destruct (opt_is WB_eqb (zat vals (_i r - 1)) ZWJ).
  - destruct HI as (Ht & Hrest). pose proof (conj Ht Hrest) as HI.
    destruct (BuildFacts.zat_in_range (_text r) (_i r)) as [ch Hch]; [rewrite Ht; lia|].
    unfold chr. rewrite (BuildFacts.getitem_zat (_text r) (_i r) ltac:(lia)), Hch. cbn [Py.bind].
    destruct (epf ch); [apply write_inv; auto|apply pass1_rest_ok; auto].
  - apply pass1_rest_ok; auto.
Qed.

Lemma nlfree_in o xs : opt_in WB_eqb o xs = true ->
  forallb (fun x => negb (mem WB_eqb x NLTuple)) xs = true -> nlfree o = true.
Proof.
  destruct o as [x|]; simpl; [|discriminate]. unfold mem. intros H1 H2.
  apply existsb_exists in H1 as (y & Hy & Heq). apply WB_eqb_eq in Heq. subst.
  rewrite forallb_forall in H2. apply H2, Hy.
Qed.

Lemma nlfree_is o x : opt_is WB_eqb o x = true ->
  negb (mem WB_eqb x NLTuple) = true -> nlfree o = true.
Proof.
  destruct o as [y|]; simpl; [|discriminate]. intros H1 H2.
  apply WB_eqb_eq in H1. subst. exact H2.
Qed.

Lemma nlfree_eqb p c : opt_eqb WB_eqb p c = true -> nlfree c = true -> nlfree p = true.
Proof. intros H. apply opt_eqb_eq in H. subst. auto. Qed.

Ltac split_andb :=
  repeat match goal with
  | H : andb _ _ = true |- _ => apply andb_prop in H; destruct H
  end.

Ltac solve_nlfree :=
  first
    [ eapply nlfree_in; [eassumption|reflexivity]
    | eapply nlfree_is; [eassumption|reflexivity]
    | eapply nlfree_eqb; [eassumption|eapply nlfree_is; [eassumption|reflexivity]] ].

(** Every rule of the second pass needs [prev] and [curr] to be present and
    not line terminators, and its action is [do_not_break_here]. *)
Lemma pass2_cases r : wb_pass2_body r = Ok r \/
  (nlfree (prev r) = true /\ nlfree (curr r) = true /\ wb_pass2_body r = do_not_break_here r).
Proof.
  unfold wb_pass2_body.
  repeat match goal with
  | |- context [if ?b then _ else _] => let E := fresh "E" in destruct b eqn:E
  end;
  first [ left; reflexivity
        | right; split_andb; split; [solve_nlfree|split; [solve_nlfree|reflexivity]] ].
Qed.

(** A [do_not_break_here] of the second or third pass stores the value the
    first pass stores there, if any. *)
Lemma nlfree_write s r : WInv s r -> _skip r = SK ->
  nlfree (prev r) = true -> nlfree (curr r) = true ->
  exists r', do_not_break_here r = Ok r' /\ WInv s r' /\ _i r' = _i r /\ _skip r' = _skip r.
Proof.
  intros HI Hs Hp Hc.
  rewrite (curr_zat s r HI) in Hc.
  destruct (zat (map wbf s) (_i r)) as [y|] eqn:Ey; [|discriminate].
  apply BuildFacts.zat_lt in Ey as Hy. rewrite len_map_wbf in Hy.
  destruct (prev_at r) as (j & Hpj & Hj & Hcase).
  rewrite Hpj, (at_value_zat s r j HI) in Hp.
  destruct (zat (map wbf s) j) as [x|] eqn:Ex; [|discriminate].
  apply BuildFacts.zat_lt in Ex as Hx.
  apply write_inv; auto; [lia|].
  symmetry. apply pass1_value_zero; [|rewrite Ey; exact Hc].
  destruct Hcase as [Hj1|(Hr & Hsk)]; [rewrite <- Hj1, Ex; exact Hp|].
  unfold skipped in Hsk. rewrite Hs in Hsk. destruct HI as (Ht & Hv & _). rewrite Hv in Hsk.
  unfold zat. destruct (Z.leb_spec 0 (_i r - 1)); [|lia].
  destruct (nth_error (map wbf s) (Z.to_nat (_i r - 1))) as [v|]; [|discriminate].
  destruct v; cbv in Hsk |- *; congruence.
Qed.

Lemma pass2_body_ok s r : WInv s r -> _skip r = SK ->
  exists r', wb_pass2_body r = Ok r' /\ WInv s r' /\ _i r' = _i r /\ _skip r' = _skip r.
Proof.
  intros HI Hs. destruct (pass2_cases r) as [->|(Hp & Hc & ->)].
  - exists r. auto.
  - apply nlfree_write; auto.
Qed.

Lemma runner_while_ok s (K : list WordBreak) (body : Runner -> result Runner) :
  (forall r, WInv s r -> _skip r = K -> 1 <= _i r < len s ->
     exists r', body r = Ok r' /\ WInv s r' /\ _i r' = _i r /\ _skip r' = _skip r) ->
  forall fuel r, WInv s r -> _skip r = K ->
  exists r', runner_while fuel body r = Ok r' /\ WInv s r' /\ _skip r' = K.
Proof.
  intros Hb. induction fuel as [|f IH]; intros r HI Hs; cbn [runner_while].
  - exists r. auto.
  - destruct (walk_inv s r HI) as (HI1 & Hs1 & _ & Hok).
    destruct (walk r) as [ok r1]. cbn [fst snd] in *.
    destruct ok.
    + destruct (Hb r1 HI1 ltac:(congruence) (Hok eq_refl)) as (r2 & -> & HI2 & _ & Hs2).
      cbn [Py.bind]. apply IH; auto. congruence.
    + exists r1. split; [reflexivity|]. split; [exact HI1|congruence].
Qed.

Lemma seek_ri_ok s fuel r : WInv s r ->
  WInv s (seek_ri fuel r) /\ _skip (seek_ri fuel r) = _skip r.
Proof.
  revert r. induction fuel as [|f IH]; intros r HI; cbn [seek_ri]; [auto|].
  destruct (negb _); [|auto].
  destruct (walk_inv s r HI) as (HI1 & Hs1 & _ & _).
  destruct (walk r) as [ok r1]. cbn [fst snd] in *.
  destruct ok; [|auto]. destruct (IH r1 HI1). split; congruence.
Qed.

Lemma pair_ri_ok s fuel r : WInv s r -> _skip r = SK ->
  exists r', pair_ri fuel r = Ok r' /\ WInv s r' /\ _skip r' = SK.
Proof.
  revert r. induction fuel as [|f IH]; intros r HI Hs; cbn [pair_ri]; [eauto|].
  destruct (opt_eqb WB_eqb (prev r) (curr r) && opt_is WB_eqb (curr r) REGIONAL_INDICATOR) eqn:E;
    [|eauto].
  split_andb.
  assert (Hc : nlfree (curr r) = true) by solve_nlfree.
  assert (Hp : nlfree (prev r) = true) by (eapply nlfree_eqb; eassumption).
  destruct (nlfree_write s r HI Hs Hp Hc) as (r1 & -> & HI1 & _ & Hs1). cbn [Py.bind].
  destruct (walk_inv s r1 HI1) as (HI2 & Hs2 & _ & _).
  destruct (walk r1) as [ok1 r2]. cbn [fst snd] in *.
  destruct ok1; [|exists r2; split; [reflexivity|split; [exact HI2|congruence]]].
  destruct (walk_inv s r2 HI2) as (HI3 & Hs3 & _ & _).
  destruct (walk r2) as [ok2 r3]. cbn [fst snd] in *.
  destruct ok2; [apply IH; auto; congruence|].
  exists r3. split; [reflexivity|split; [exact HI3|congruence]].
Qed.

Lemma ri_loop_ok s fuel r : WInv s r -> _skip r = SK ->
  exists r', ri_loop fuel r = Ok r' /\ WInv s r' /\ _skip r' = SK.
Proof.
  revert r. induction fuel as [|f IH]; intros r HI Hs; cbn [ri_loop]; [eauto|].
  destruct (seek_ri_ok s (S (List.length (_text r))) r HI) as (HI1 & Hs1).
  set (r1 := seek_ri (S (List.length (_text r))) r) in *.
  destruct (walk_inv s r1 HI1) as (HI2 & Hs2 & _ & _).
  destruct (walk r1) as [ok r2]. cbn [fst snd] in *.
  destruct ok; [|exists r2; split; [reflexivity|split; [exact HI2|congruence]]].
  destruct (pair_ri_ok s (S (List.length (_text r))) r2 HI2 ltac:(congruence))
    as (r3 & -> & HI3 & Hs3).
  cbn [Py.bind]. apply IH; auto.
Qed.

(** [word_breakables] runs to its end on every string and keeps [WInv]. *)
Lemma word_run_ok s : exists r, word_run wbf epf s = Ok r /\ WInv s r.
Proof.
  unfold word_run.
  assert (HI0 : WInv s (Runner_new wbf s)).
  { unfold WInv, Runner_new; cbn. repeat split; auto; try lia.
    - unfold len. rewrite length_map. reflexivity.
    - intros k Hk. left. unfold zat. destruct (Z.leb_spec 0 k); [|lia].
      rewrite nth_error_map. destruct (BuildFacts.zat_in_range s k ltac:(lia)) as (c & Hc).
      unfold zat in Hc. destruct (Z.leb_spec 0 k); [|lia]. rewrite Hc. reflexivity. }
  destruct (runner_while_ok s [] (wb_pass1_body epf)
              (fun r HI Hs Hr => pass1_body_ok s r HI Hs Hr)
              (S (List.length s)) _ HI0 eq_refl) as (r1 & -> & HI1 & Hs1).
  cbn [Py.bind]. change [EXTEND; FORMAT; ZWJ] with SK.
  destruct (runner_while_ok s SK wb_pass2_body
              (fun r HI Hs _ => pass2_body_ok s r HI Hs)
              (S (List.length s)) (skip (head r1) SK)
              (skip_inv s _ SK (head_inv s r1 HI1)) eq_refl) as (r2 & -> & HI2 & Hs2).
  cbn [Py.bind].
  destruct (ri_loop_ok s (S (List.length s)) (head r2) (head_inv s r2 HI2) Hs2)
    as (r3 & -> & HI3 & _).
  eauto.
Qed.

End Word.
End WordFacts.

(* ------------------------------------------------------------------------- *)
(** ** Writes of the [Run] cursor *)

Module RunWriteFacts.
Import RunCursor.

Lemma nth_error_set_nth_other {A : Type} (l : list A) n k v :
  k <> n -> nth_error (set_nth l n v) k = nth_error l k.
Proof.
  revert n k. induction l as [|x l IH]; intros [|n] [|k] Hne; simpl; auto; try congruence.
Qed.

(** [break_here] and [do_not_break_here] keep every decided position. *)
Lemma write_if_unknown_keeps {T : Type} (r r' : Run T) b k v :
  write_if_unknown r b = Ok r' ->
  zat (run_breakables r) k = Some (Some v) -> zat (run_breakables r') k = Some (Some v).
Proof.
  unfold write_if_unknown. destruct (run_text r); [intros H; injection H as <-; auto|].
  unfold getitem, setitem. cbv zeta.
  set (p := if run_position r <? 0 then run_position r + len (run_breakables r) else run_position r).
  destruct ((0 <=? p) && (p <? len (run_breakables r))); cbn [Py.bind]; [|discriminate].
  destruct (nth_error (run_breakables r) (Z.to_nat p)) as [cur|] eqn:Ec; cbn [Py.bind];
    [|discriminate].
  destruct cur as [c|]; [intros H; injection H as <-; auto|].
  intros H; injection H as <-. unfold set_breakables. cbn [run_breakables].
  unfold zat. destruct (0 <=? k); [|discriminate]. intros Hv.
  rewrite nth_error_set_nth_other; auto. intros Heq. rewrite Heq in Hv. congruence.
Qed.

(** [set_default] fills the unknown positions only. *)
Lemma set_default_entry {T : Type} (r : Run T) b k x :
  zat (run_breakables r) k = Some x ->
  zat (run_breakables (set_default r b)) k = Some (match x with None => Some b | Some _ => x end).
Proof.
  unfold set_default, set_breakables, zat. cbn [run_breakables].
  destruct (0 <=? k); [|discriminate]. rewrite nth_error_map. intros ->. reflexivity.
Qed.

(** LB2 of the line engine: the first write decides position 0. *)
Lemma do_not_break_here_start {T : Type} (f : Z -> T) (s : str) :
  s <> [] -> exists r, do_not_break_here (Run_new s f) = Ok r /\
    zat (run_breakables r) 0 = Some (Some DoNotBreak).
Proof.
  destruct s as [|c rest]; [congruence|]. intros _.
  eexists. split; reflexivity.
Qed.

End RunWriteFacts.

Module WordResults.
Import WordBreakM.

Lemma word_breakables_ok wbf epf (s : str) : exists b,
  word_breakables wbf epf s = Ok b /\ len b = len s /\ (s <> [] -> zat b 0 = Some 1).
Proof.
  destruct s as [|c rest].
  - exists []. split; [reflexivity|]. split; [reflexivity|congruence].
  - unfold word_breakables. destruct (WordFacts.word_run_ok wbf epf (c :: rest)) as (r & -> & HI).
    cbn [Py.bind]. exists (_breakables r).
    destruct HI as (_ & _ & _ & Hl & H0 & _).
    split; [reflexivity|]. split; [exact Hl|]. intros _. rewrite H0. reflexivity.
Qed.

Lemma word_writes_agree wbf epf (s : str) r :
  word_run wbf epf s = Ok r ->
  forall k v w, In (k, v) (_writes r) -> In (k, w) (_writes r) -> v = w.
Proof.
  intros H. destruct (WordFacts.word_run_ok wbf epf s) as (r0 & H0 & HI).
  rewrite H in H0. injection H0 as <-.
  destruct HI as (_ & _ & _ & _ & _ & Hw & _). rewrite Forall_forall in Hw.
  intros k v w Hv Hw'. apply Hw in Hv. apply Hw in Hw'. simpl in Hv, Hw'.
  destruct Hv as [_ ->]. destruct Hw' as [_ ->]. reflexivity.
Qed.

End WordResults.

(* ------------------------------------------------------------------------- *)
(** ** The write log of the word [Runner] *)

Module WordLog.
Import WordBreakM.

(** Every write logged in [r] is logged in [r']. *)
Definition wincl (r r' : Runner) : Prop := forall x, In x (_writes r) -> In x (_writes r').

Lemma wincl_refl r : wincl r r.
Proof. intros x H; exact H. Qed.

Lemma wincl_trans r1 r2 r3 : wincl r1 r2 -> wincl r2 r3 -> wincl r1 r3.
Proof. intros H1 H2 x Hx. apply H2, H1, Hx. Qed.

Lemma write_mono r v r' : write r v = Ok r' -> wincl r r'.
Proof.
  unfold write. destruct (setitem _ _ _); cbn [Py.bind]; [|discriminate].
  intros H. injection H as <-. intros x Hx. cbn [_writes]. apply in_or_app. auto.
Qed.

Lemma walk_mono r : wincl r (snd (walk r)).
Proof. unfold walk. cbn [snd]. intros x Hx. exact Hx. Qed.

Lemma walk_noskip r : _skip r = [] ->
  walk r = (_i r + 1 <? len (_text r), set_i r (_i r + 1)).
Proof.
  intros Hs. unfold walk. cbn [walk_skip].
  replace (skipped r (_i r + 1)) with false.
  - rewrite andb_false_r. reflexivity.
  - unfold skipped. rewrite Hs. destruct (nth_error _ _); reflexivity.
Qed.

Section Word.
Variable wbf : Z -> WordBreak.
Variable epf : Z -> bool.

Lemma pass1_rest_mono r r' : wb_pass1_rest r = Ok r' -> wincl r r'.
Proof.
  unfold wb_pass1_rest, do_not_break_here.
  destruct (_ && _); [apply write_mono|].
  destruct (opt_in _ _ _); [apply write_mono|].
  intros H; injection H as <-; apply wincl_refl.
Qed.

Lemma pass1_body_mono r r' : wb_pass1_body epf r = Ok r' -> wincl r r'.
Proof.
  unfold wb_pass1_body, do_not_break_here, break_here.
  destruct (_ && _); [apply write_mono|].
  destruct (opt_in _ (prev r) _); [apply write_mono|].
  destruct (opt_in _ (curr r) _); [apply write_mono|].
  destruct (opt_is _ _ _); [|apply pass1_rest_mono].
  destruct (chr r); cbn [Py.bind]; [|discriminate].
  destruct (epf z); [apply write_mono|apply pass1_rest_mono].
Qed.

Lemma pass2_body_mono r r' : wb_pass2_body r = Ok r' -> wincl r r'.
Proof.
  destruct (WordFacts.pass2_cases r) as [->|(_ & _ & ->)].
  - intros H; injection H as <-; apply wincl_refl.
  - apply write_mono.
Qed.

Lemma runner_while_mono (body : Runner -> result Runner) :
  (forall r r', body r = Ok r' -> wincl r r') ->
  forall fuel r r', runner_while fuel body r = Ok r' -> wincl r r'.
Proof.
  intros Hb. induction fuel as [|f IH]; intros r r' H; cbn [runner_while] in H.
  - injection H as <-. apply wincl_refl.
  - pose proof (walk_mono r) as Hw. destruct (walk r) as [ok r1]. cbn [snd] in Hw.
    destruct ok.
    + destruct (body r1) as [r2|e] eqn:E; cbn [Py.bind] in H; [|discriminate].
      eapply wincl_trans; [exact Hw|]. eapply wincl_trans; [apply Hb, E|]. apply (IH r2), H.
    + injection H as <-. exact Hw.
Qed.

Lemma seek_ri_mono fuel r : wincl r (seek_ri fuel r).
Proof.
  revert r. induction fuel as [|f IH]; intros r; cbn [seek_ri]; [apply wincl_refl|].
  destruct (negb _); [|apply wincl_refl].
  pose proof (walk_mono r) as Hw. destruct (walk r) as [ok r1]. cbn [snd] in Hw.
  destruct ok; [eapply wincl_trans; [exact Hw|apply IH]|exact Hw].
Qed.

Lemma pair_ri_mono fuel r r' : pair_ri fuel r = Ok r' -> wincl r r'.
Proof.
  revert r. induction fuel as [|f IH]; intros r H; cbn [pair_ri] in H.
  - injection H as <-. apply wincl_refl.
  - destruct (_ && _); [|injection H as <-; apply wincl_refl].
    destruct (do_not_break_here r) as [r1|e] eqn:E; cbn [Py.bind] in H; [|discriminate].
    apply write_mono in E.
    pose proof (walk_mono r1) as Hw1. destruct (walk r1) as [ok1 r2]. cbn [snd] in Hw1.
    destruct ok1; [|injection H as <-; eapply wincl_trans; eassumption].
    pose proof (walk_mono r2) as Hw2. destruct (walk r2) as [ok2 r3]. cbn [snd] in Hw2.
    eapply wincl_trans; [exact E|]. eapply wincl_trans; [exact Hw1|].
    eapply wincl_trans; [exact Hw2|].
    destruct ok2; [apply (IH r3), H|injection H as <-; apply wincl_refl].
Qed.

Lemma ri_loop_mono fuel r r' : ri_loop fuel r = Ok r' -> wincl r r'.
Proof.
  revert r. induction fuel as [|f IH]; intros r H; cbn [ri_loop] in H.
  - injection H as <-. apply wincl_refl.
  - pose proof (seek_ri_mono (S (List.length (_text r))) r) as H1.
    set (r1 := seek_ri _ r) in *.
    pose proof (walk_mono r1) as Hw. destruct (walk r1) as [ok r2]. cbn [snd] in Hw.
    destruct ok; [|injection H as <-; eapply wincl_trans; eassumption].
    destruct (pair_ri _ r2) as [r3|e] eqn:E; cbn [Py.bind] in H; [|discriminate].
    apply pair_ri_mono in E.
    eapply wincl_trans; [exact H1|]. eapply wincl_trans; [exact Hw|].
    eapply wincl_trans; [exact E|]. apply (IH r3), H.
Qed.

(** The first pass, whose skip list is empty, visits every position after
    the current one and stores [0] at every CR LF pair. *)
Lemma pass1_visits s : forall fuel r r', WordFacts.WInv wbf s r -> _skip r = [] ->
  len s <= _i r + Z.of_nat fuel ->
  runner_while fuel (wb_pass1_body epf) r = Ok r' ->
  forall k, _i r < k < len s ->
  opt_is WB_eqb (zat (map wbf s) (k - 1)) CR && opt_is WB_eqb (zat (map wbf s) k) LF = true ->
  In (k, 0) (_writes r').
Proof.
  induction fuel as [|f IH]; intros r r' HI Hs Hf H k Hk Hcrlf; [lia|].
  cbn [runner_while] in H.
  destruct (WordFacts.walk_inv wbf s r HI) as (HI1 & Hs1 & _ & Hok).
  rewrite (walk_noskip r Hs) in H, HI1, Hs1, Hok. cbn [fst snd] in H, HI1, Hs1, Hok.
  pose proof HI as (Ht & _ & Hi & _). rewrite Ht in H, Hok.
  destruct (Z.ltb_spec (_i r + 1) (len s)) as [Hlt|Hge]; [|lia].
  specialize (Hok eq_refl).
  destruct (WordFacts.pass1_body_ok wbf epf s _ HI1 ltac:(rewrite Hs1; exact Hs) Hok)
    as (r2 & E2 & HI2 & Hi2 & Hs2).
  rewrite E2 in H. cbn [Py.bind] in H.
  cbn [_i set_i] in Hi2.
  destruct (Z.eq_dec k (_i r + 1)) as [->|Hne].
  - apply (runner_while_mono _ pass1_body_mono f r2 r' H).
    revert E2. unfold wb_pass1_body.
    rewrite (WordFacts.prev_noskip wbf s _ HI1 ltac:(rewrite Hs1; exact Hs)),
            (WordFacts.curr_zat wbf s _ HI1).
    cbn [_i set_i]. rewrite Hcrlf. unfold do_not_break_here, write.
    destruct (setitem _ _ _); cbn [Py.bind]; [|discriminate].
    intros E; injection E as <-. cbn [_writes _i set_i]. apply in_or_app. right. left.
    reflexivity.
  - apply (IH r2 r' HI2 ltac:(rewrite Hs2, Hs1; exact Hs) ltac:(lia) H k ltac:(lia) Hcrlf).
Qed.

Lemma runner_new_inv s : WordFacts.WInv wbf s (Runner_new wbf s).
Proof.
  unfold WordFacts.WInv, Runner_new; cbn. repeat split; auto; try lia.
  - unfold len. rewrite length_map. reflexivity.
  - intros k Hk. left. unfold zat. destruct (Z.leb_spec 0 k); [|lia].
    rewrite nth_error_map. destruct (BuildFacts.zat_in_range s k ltac:(lia)) as (c & Hc).
    unfold zat in Hc. destruct (Z.leb_spec 0 k); [|lia]. rewrite Hc. reflexivity.
Qed.

(** The final runner of [word_breakables(s)] has logged [(k, 0)] at every
    CR LF pair: WB3 of the first pass, never overwritten later. *)
Lemma word_run_crlf s r : word_run wbf epf s = Ok r -> forall k, 0 < k < len s ->
  opt_is WB_eqb (zat (map wbf s) (k - 1)) CR && opt_is WB_eqb (zat (map wbf s) k) LF = true ->
  In (k, 0) (_writes r).
Proof.
  unfold word_run. intros H k Hk Hc.
  destruct (runner_while _ (wb_pass1_body epf) (Runner_new wbf s)) as [r1|e] eqn:E1;
    cbn [Py.bind] in H; [|discriminate].
  destruct (runner_while _ wb_pass2_body _) as [r2|e] eqn:E2;
    cbn [Py.bind] in H; [|discriminate].
  apply ri_loop_mono in H. apply (runner_while_mono _ pass2_body_mono) in E2.
  apply H, E2. cbn [head skip set_i _writes].
  eapply (pass1_visits s _ _ _ (runner_new_inv s) eq_refl); [|exact E1| |exact Hc];
    cbn [_i Runner_new]; unfold len in *; lia.
Qed.

End Word.
End WordLog.

(* ------------------------------------------------------------------------- *)
(** ** Where the entries of the word [Runner]'s vector come from *)

Module WordFin.
Import WordBreakM.

(** From [r] to [r']: the log grows, the vector keeps its length, and every
    entry of [r'] is the entry of [r] or a logged write at its index (a
    negative [self._i] writes at [self._i + len]). *)
Definition wfin (r r' : Runner) : Prop :=
  WordLog.wincl r r' /\ len (_breakables r') = len (_breakables r) /\
  forall k v, zat (_breakables r') k = Some v ->
    zat (_breakables r) k = Some v \/ In (k, v) (_writes r')
    \/ In (k - len (_breakables r), v) (_writes r').

Lemma wfin_refl r : wfin r r.
Proof. split; [apply WordLog.wincl_refl|]. split; [reflexivity|]. intros k v H. left. exact H. Qed.

Lemma wfin_trans r1 r2 r3 : wfin r1 r2 -> wfin r2 r3 -> wfin r1 r3.
Proof.
  intros (I1 & L1 & F1) (I2 & L2 & F2).
  split; [eapply WordLog.wincl_trans; eassumption|]. split; [lia|].
  intros k v H. destruct (F2 k v H) as [H2|[H2|H2]].
  - destruct (F1 k v H2) as [H1|[H1|H1]]; [left; exact H1|right; left; apply I2, H1|].
    right; right. apply I2, H1.
  - right; left; exact H2.
  - right; right. rewrite L1 in H2. exact H2.
Qed.

Lemma write_fin r v r' : write r v = Ok r' -> wfin r r'.
Proof.
  intros H. pose proof (WordLog.write_mono _ _ _ H) as Hi.
  unfold write in H. destruct (setitem _ _ _) as [bs|e] eqn:Es; cbn [Py.bind] in H; [|discriminate].
  injection H as <-. split; [exact Hi|]. cbn [_breakables _writes].
  unfold setitem in Es.
  set (i' := if _i r <? 0 then _i r + len (_breakables r) else _i r) in Es.
  destruct ((0 <=? i') && (i' <? len (_breakables r))) eqn:C; [|discriminate].
  injection Es as <-. apply andb_true_iff in C. destruct C as [C1 C2].
  apply Z.leb_le in C1. apply Z.ltb_lt in C2.
  split; [unfold len; rewrite WordFacts.length_set_nth; reflexivity|].
  intros k w Hk. destruct (Z.eq_dec k i') as [->|Hne].
  - rewrite WordFacts.zat_set_nth_eq in Hk by lia. injection Hk as <-.
    right. unfold i'. destruct (Z.ltb_spec (_i r) 0).
    + right. apply in_or_app. right. left. f_equal. lia.
    + left. apply in_or_app. right. left. reflexivity.
  - rewrite WordFacts.zat_set_nth_neq in Hk by lia. left. exact Hk.
Qed.

Lemma wfin_same r r' : _breakables r' = _breakables r -> _writes r' = _writes r -> wfin r r'.
Proof.
  intros Hb Hw. split; [intros x Hx; rewrite Hw; exact Hx|]. rewrite Hb.
  split; [reflexivity|]. intros k v H. left. exact H.
Qed.

Lemma walk_fin r : wfin r (snd (walk r)).
Proof. apply wfin_same; reflexivity. Qed.

Lemma skip_head_fin r vs : wfin r (skip (head r) vs).
Proof. apply wfin_same; reflexivity. Qed.

Lemma head_fin r : wfin r (head r).
Proof. apply wfin_same; reflexivity. Qed.

Section Word.
Variable wbf : Z -> WordBreak.
Variable epf : Z -> bool.

Lemma pass1_rest_fin r r' : wb_pass1_rest r = Ok r' -> wfin r r'.
Proof.
  unfold wb_pass1_rest, do_not_break_here.
  destruct (_ && _); [apply write_fin|].
  destruct (opt_in _ _ _); [apply write_fin|].
  intros H; injection H as <-; apply wfin_refl.
Qed.

Lemma pass1_body_fin r r' : wb_pass1_body epf r = Ok r' -> wfin r r'.
Proof.
  unfold wb_pass1_body, do_not_break_here, break_here.
  destruct (_ && _); [apply write_fin|].
  destruct (opt_in _ (prev r) _); [apply write_fin|].
  destruct (opt_in _ (curr r) _); [apply write_fin|].
  destruct (opt_is _ _ _); [|apply pass1_rest_fin].
  destruct (chr r); cbn [Py.bind]; [|discriminate].
  destruct (epf z); [apply write_fin|apply pass1_rest_fin].
Qed.

Lemma pass2_body_fin r r' : wb_pass2_body r = Ok r' -> wfin r r'.
Proof.
  destruct (WordFacts.pass2_cases r) as [->|(_ & _ & ->)].
  - intros H; injection H as <-; apply wfin_refl.
  - apply write_fin.
Qed.

Lemma runner_while_fin (body : Runner -> result Runner) :
  (forall r r', body r = Ok r' -> wfin r r') ->
  forall fuel r r', runner_while fuel body r = Ok r' -> wfin r r'.
Proof.
  intros Hb. induction fuel as [|f IH]; intros r r' H; cbn [runner_while] in H.
  - injection H as <-. apply wfin_refl.
  - pose proof (walk_fin r) as Hw. destruct (walk r) as [ok r1]. cbn [snd] in Hw.
    destruct ok.
    + destruct (body r1) as [r2|e] eqn:E; cbn [Py.bind] in H; [|discriminate].
      eapply wfin_trans; [exact Hw|]. eapply wfin_trans; [apply Hb, E|]. apply (IH r2), H.
    + injection H as <-. exact Hw.
Qed.

Lemma seek_ri_fin fuel r : wfin r (seek_ri fuel r).
Proof.
  revert r. induction fuel as [|f IH]; intros r; cbn [seek_ri]; [apply wfin_refl|].
  destruct (negb _); [|apply wfin_refl].
  pose proof (walk_fin r) as Hw. destruct (walk r) as [ok r1]. cbn [snd] in Hw.
  destruct ok; [eapply wfin_trans; [exact Hw|apply IH]|exact Hw].
Qed.

Lemma pair_ri_fin fuel r r' : pair_ri fuel r = Ok r' -> wfin r r'.
Proof.
  revert r. induction fuel as [|f IH]; intros r H; cbn [pair_ri] in H.
  - injection H as <-. apply wfin_refl.
  - destruct (_ && _); [|injection H as <-; apply wfin_refl].
    destruct (do_not_break_here r) as [r1|e] eqn:E; cbn [Py.bind] in H; [|discriminate].
    apply write_fin in E.
    pose proof (walk_fin r1) as Hw1. destruct (walk r1) as [ok1 r2]. cbn [snd] in Hw1.
    destruct ok1; [|injection H as <-; eapply wfin_trans; eassumption].
    pose proof (walk_fin r2) as Hw2. destruct (walk r2) as [ok2 r3]. cbn [snd] in Hw2.
    eapply wfin_trans; [exact E|]. eapply wfin_trans; [exact Hw1|].
    eapply wfin_trans; [exact Hw2|].
    destruct ok2; [apply (IH r3), H|injection H as <-; apply wfin_refl].
Qed.

Lemma ri_loop_fin fuel r r' : ri_loop fuel r = Ok r' -> wfin r r'.
Proof.
  revert r. induction fuel as [|f IH]; intros r H; cbn [ri_loop] in H.
  - injection H as <-. apply wfin_refl.
  - pose proof (seek_ri_fin (S (List.length (_text r))) r) as H1.
    set (r1 := seek_ri _ r) in *.
    pose proof (walk_fin r1) as Hw. destruct (walk r1) as [ok r2]. cbn [snd] in Hw.
    destruct ok; [|injection H as <-; eapply wfin_trans; eassumption].
    destruct (pair_ri _ r2) as [r3|e] eqn:E; cbn [Py.bind] in H; [|discriminate].
    apply pair_ri_fin in E.
    eapply wfin_trans; [exact H1|]. eapply wfin_trans; [exact Hw|].
    eapply wfin_trans; [exact E|]. apply (IH r3), H.
Qed.

(** Every entry of the vector [word_breakables(s)] returns is [1], the value
    [Runner] starts from, or a value the rules wrote there. *)
Lemma word_run_fin s r : word_run wbf epf s = Ok r ->
  forall k v, zat (_breakables r) k = Some v -> v = 1 \/ In (k, v) (_writes r).
Proof.
  intros H k v Hk.
  destruct (WordFacts.word_run_ok wbf epf s) as (r0 & E0 & HI).
  rewrite H in E0. injection E0 as <-.
  destruct HI as (_ & _ & _ & Hl & _ & HF & _).
  unfold word_run in H.
  destruct (runner_while _ (wb_pass1_body epf) (Runner_new wbf s)) as [r1|e] eqn:E1;
    cbn [Py.bind] in H; [|discriminate].
  destruct (runner_while _ wb_pass2_body _) as [r2|e] eqn:E2;
    cbn [Py.bind] in H; [|discriminate].
  apply ri_loop_fin in H. apply (runner_while_fin _ pass2_body_fin) in E2.
  apply (runner_while_fin _ pass1_body_fin) in E1.
  assert (W : wfin (Runner_new wbf s) r).
  { eapply wfin_trans; [exact E1|]. eapply wfin_trans; [apply skip_head_fin|].
    eapply wfin_trans; [exact E2|]. eapply wfin_trans; [apply head_fin|]. exact H. }
  destruct W as (_ & _ & F). destruct (F k v Hk) as [H0|[H0|H0]].
  - left. cbn [Runner_new _breakables] in H0. unfold zat in H0.
    destruct (0 <=? k); [|discriminate]. rewrite nth_error_map in H0.
    destruct (nth_error s _); cbn in H0; [|discriminate]. injection H0 as <-. reflexivity.
  - right. exact H0.
  - exfalso. pose proof (BuildFacts.zat_lt _ _ _ Hk) as Hlt.
    rewrite Forall_forall in HF. specialize (HF _ H0). cbn [fst] in HF.
    cbn [Runner_new _breakables] in HF.
    unfold len in HF, Hl, Hlt. rewrite length_map in HF. lia.
Qed.

End Word.
End WordFin.

Module ListFacts.

Lemma zat_map {A B : Type} (f : A -> B) (l : list A) k :
  zat (map f l) k = option_map f (zat l k).
Proof. unfold zat. destruct (0 <=? k); [apply nth_error_map|reflexivity]. Qed.

Lemma Forall_zat {A : Type} (P : A -> Prop) (l : list A) :
  (forall k v, zat l k = Some v -> P v) -> Forall P l.
Proof.
  intros H. apply Forall_forall. intros x Hx. apply In_nth_error in Hx as (n & Hn).
  apply (H (Z.of_nat n)). unfold zat. destruct (Z.leb_spec 0 (Z.of_nat n)); [|lia].
  rewrite Nat2Z.id. exact Hn.
Qed.

End ListFacts.

(* ------------------------------------------------------------------------- *)
(** ** Tokens and boundaries *)

Module UnitsFacts.
Import Breaking.

Lemma slice_from_end (s : str) (i : Z) : slice_from s i = slice s i (len s).
Proof.
  unfold slice_from, slice.
  assert (Hn : slice_bound (len s) (len s) = len s)
    by (unfold slice_bound, len; destruct (Z.ltb_spec (Z.of_nat (List.length s)) 0); lia).
  rewrite Hn. rewrite firstn_all2; [reflexivity|].
  rewrite length_skipn. unfold len. lia.
Qed.

Lemma units_loop (s : str) : forall bs j i last, 1 <= j ->
  fst (break_units_loop s j i bs) ++ [slice_from s (snd (break_units_loop s j i bs))]
  = Aux.slices_between s i (fst (boundaries_loop j bs last) ++ [len s]).
Proof.
  induction bs as [|bk bs IH]; intros j i last Hj; cbn [break_units_loop boundaries_loop].
  - cbn. rewrite slice_from_end. reflexivity.
  - specialize (IH (j + 1)).
    destruct (boundaries_loop (j + 1) bs (Some j)) as [zs l] eqn:E.
    destruct (truthy bk).
    + destruct (break_units_loop s (j + 1) j bs) as [ys i'] eqn:F.
      specialize (IH j (Some j) ltac:(lia)). rewrite E, F in IH. cbn [fst snd] in *.
      destruct (Z.eqb_spec j 0) as [|_]; [lia|].
      cbn [app Aux.slices_between]. rewrite IH. reflexivity.
    + specialize (IH i (Some j) ltac:(lia)). rewrite E in IH. cbn [fst snd] in *.
      exact IH.
Qed.

End UnitsFacts.

(* ------------------------------------------------------------------------- *)
(** ** Positions of the [Run] cursor *)

Module CursorFacts.
Import RunCursor.

Lemma unit_vec (off : Z) : off <> 0 ->
  Z.abs off * (off / Z.abs off) = off /\ (off / Z.abs off = 1 \/ off / Z.abs off = -1).
Proof.
  intros H. destruct (Z.lt_ge_cases 0 off) as [Hp|Hn].
  - rewrite Z.abs_eq by lia. rewrite Z.div_same by lia. lia.
  - rewrite Z.abs_neq by lia.
    assert (E : off / - off = -1).
    { replace off with (-1 * (- off)) at 1 by ring. rewrite Z.div_mul by lia. reflexivity. }
    rewrite E. lia.
Qed.

Section Facts.
Variable T : Type.
Variable T_eqb : T -> T -> bool.

Lemma skip_while_noskip fuel (r : Run T) ns vec i : (run_skip r = [] \/ ns = true) ->
  skip_while T T_eqb fuel r ns vec i = i.
Proof.
  intros H. destruct fuel as [|f]; [reflexivity|]. cbn [skip_while].
  replace (negb ns && in_skip T T_eqb r i) with false; [rewrite andb_false_r; reflexivity|].
  destruct H as [H| ->]; [rewrite (RunFacts.in_skip_nil T T_eqb r i H); symmetry; apply andb_false_r|reflexivity].
Qed.

Lemma calc_steps_noskip k (r : Run T) ns vec i : (run_skip r = [] \/ ns = true) ->
  calc_steps T T_eqb k r ns vec i = i + Z.of_nat k * vec.
Proof.
  intros H. revert i. induction k as [|k IH]; intros i; cbn [calc_steps]; [lia|].
  rewrite IH, skip_while_noskip by exact H. lia.
Qed.

Lemma calc_position_noskip (r : Run T) off ns : (run_skip r = [] \/ ns = true) ->
  calc_position T T_eqb r off ns = run_position r + off.
Proof.
  intros H. unfold calc_position. rewrite calc_steps_noskip by exact H.
  destruct (Z.eqb_spec off 0) as [->|Hn]; [reflexivity|].
  rewrite Z2Nat.id by lia. destruct (unit_vec off Hn) as [E _]. lia.
Qed.

(** The index [skip_while] stops at is outside the text or not skipped. *)
Definition stops (r : Run T) (ns : bool) (j : Z) : Prop :=
  ~ (0 <= j < len (run_text r) /\ negb ns && in_skip T T_eqb r j = true).

Lemma skip_while_stops (r : Run T) ns vec : (vec = 1 \/ vec = -1) ->
  forall f i, (vec = 1 -> 0 <= i -> len (run_text r) - i <= Z.of_nat f) ->
  (vec = -1 -> i < len (run_text r) -> i + 1 <= Z.of_nat f) ->
  stops r ns (skip_while T T_eqb f r ns vec i).
Proof.
  intros Hv. induction f as [|f IH]; intros i H1 H2; cbn [skip_while].
  - intros (Hr & _). destruct Hv as [->| ->]; [specialize (H1 eq_refl)|specialize (H2 eq_refl)]; lia.
  - destruct ((0 <=? i) && (i <? len (run_text r)) && (negb ns && in_skip T T_eqb r i)) eqn:E.
    + apply andb_true_iff in E as (E & _). apply andb_true_iff in E as (E1 & E2).
      apply Z.leb_le in E1. apply Z.ltb_lt in E2.
      apply IH; intros ->; [intros _; specialize (H1 eq_refl)|intros _; specialize (H2 eq_refl)]; lia.
    + intros (Hr & Hs). rewrite Hs, andb_true_r in E.
      destruct Hr as [Hr1 Hr2]. apply Z.leb_le in Hr1. apply Z.ltb_lt in Hr2.
      rewrite Hr1, Hr2 in E. discriminate.
Qed.

Lemma calc_steps_stops (r : Run T) ns vec : (vec = 1 \/ vec = -1) ->
  forall k i, (1 <= k)%nat -> stops r ns (calc_steps T T_eqb k r ns vec i).
Proof.
  intros Hv. induction k as [|k IH]; intros i Hk; [lia|]. cbn [calc_steps].
  destruct k as [|k].
  - cbn [calc_steps]. apply skip_while_stops; [exact Hv| |];
      intros ->; unfold len; lia.
  - apply IH. lia.
Qed.

End Facts.
End CursorFacts.

(* ------------------------------------------------------------------------- *)
(** ** The choice of [shift] in [splitbins] *)

Module BinsOpt.
Import Build.

Lemma maxshift_loop_log2 : forall fuel n m, 0 < n -> Z.log2 n <= Z.of_nat fuel ->
  maxshift_loop fuel n m = m + Z.log2 n.
Proof.
  induction fuel as [|f IH]; intros n m Hn Hl; cbn [maxshift_loop].
  - assert (Z.log2 n = 0) by (pose proof (Z.log2_nonneg n); lia). lia.
  - destruct (Z.eqb_spec (Z.shiftr n 1) 0) as [E|E]; cbn [negb].
    + pose proof (Z.log2_nonneg n). apply Z.shiftr_eq_0_iff in E as [E|(_ & E)]; lia.
    + assert (Hs : Z.log2 (Z.shiftr n 1) = Z.log2 n - 1).
      { rewrite Z.log2_shiftr by lia.
        assert (1 <= Z.log2 n).
        { destruct (Z.lt_ge_cases (Z.log2 n) 1) as [H|H]; [|exact H].
          exfalso. apply E. apply Z.shiftr_eq_0_iff. right. lia. }
        lia. }
      assert (Hp : 0 < Z.shiftr n 1)
        by (pose proof (proj2 (Z.shiftr_nonneg n 1) ltac:(lia)); lia).
      rewrite (IH _ _ Hp) by lia. lia.
Qed.

Lemma maxshift_log2 (t : list Z) :
  (if len t - 1 >? 0 then maxshift_loop (Z.to_nat (len t - 1)) (len t - 1) 0 else 0)
  = Z.log2 (len t - 1).
Proof.
  destruct (Z.gtb_spec (len t - 1) 0) as [H|H].
  - rewrite maxshift_loop_log2 by (try lia; pose proof (Z.log2_le_lin (len t - 1)); lia).
    lia.
  - destruct (Z.eq_dec (len t - 1) 0) as [->|Hn]; [reflexivity|].
    rewrite Z.log2_nonpos by lia. reflexivity.
Qed.

Lemma table_bytes_ok (t : list Z) s : t <> [] -> 0 <= s ->
  exists b, Aux.table_bytes t s = Ok b /\ b <= 8 * len t.
Proof.
  intros Hne Hs. unfold Aux.table_bytes.
  destruct (split_with t s) as [t1 t2] eqn:E.
  destruct (BuildFacts.split_with_nonempty t s Hs Hne t1 t2 E) as (N1 & N2 & L1 & L2).
  destruct (BuildFacts.getsize_ok t1 N1) as (g1 & -> & G1).
  destruct (BuildFacts.getsize_ok t2 N2) as (g2 & -> & G2). cbn [Py.bind].
  eexists. split; [reflexivity|].
  pose proof (BuildFacts.len_nonneg t1). pose proof (BuildFacts.len_nonneg t2). nia.
Qed.

(** The loop over the shifts keeps the first shift of least size. *)
Lemma shifts_loop_opt (t : list Z) : t <> [] -> forall k s t1 t2 sb bytes r,
  0 <= sb < s -> (t1, t2) = split_with t sb -> Aux.table_bytes t sb = Ok bytes ->
  (forall s', 0 <= s' < s -> exists c, Aux.table_bytes t s' = Ok c /\ bytes <= c
                                 /\ (c = bytes -> sb <= s')) ->
  shifts_loop k t s (Some (t1, t2, sb)) bytes = Ok (Some r) ->
  exists t1' t2' sh b, r = (t1', t2', sh) /\ (t1', t2') = split_with t sh
    /\ 0 <= sh < s + Z.of_nat k /\ Aux.table_bytes t sh = Ok b
    /\ (forall s', 0 <= s' < s + Z.of_nat k -> exists c, Aux.table_bytes t s' = Ok c
          /\ b <= c /\ (c = b -> sh <= s')).
Proof.
  intros Hne. induction k as [|k IH]; intros s t1 t2 sb bytes r Hsb Hsp Hb Hall H;
    cbn [shifts_loop] in H.
  - injection H as <-. exists t1, t2, sb, bytes.
    split; [reflexivity|]. split; [exact Hsp|]. split; [lia|]. split; [exact Hb|].
    intros s' Hs'. apply Hall. lia.
  - destruct (table_bytes_ok t s Hne ltac:(lia)) as (c & Hc & _).
    pose proof Hc as Hc'. unfold Aux.table_bytes in Hc'.
    destruct (split_with t s) as [u1 u2] eqn:Es.
    destruct (getsize u1) as [g1|e]; cbn [Py.bind] in H, Hc'; [|discriminate].
    destruct (getsize u2) as [g2|e]; cbn [Py.bind] in H, Hc'; [|discriminate].
    injection Hc' as Hc'. rewrite Hc' in H.
    destruct (Z.ltb_spec c bytes) as [Hlt|Hge].
    + destruct (IH (s + 1) u1 u2 s c r ltac:(lia) (eq_sym Es) Hc) as
        (t1' & t2' & sh & b & Hr & Hsp' & Hsh & Hbs & Hopt); [|exact H|].
      * intros s' Hs'. destruct (Z.eq_dec s' s) as [->|Hne'].
        { exists c. split; [exact Hc|]. split; [lia|]. intros _. lia. }
        destruct (Hall s' ltac:(lia)) as (c' & Hc1 & Hc2 & Hc3).
        exists c'. split; [exact Hc1|]. split; [lia|]. intros Heq. lia.
      * exists t1', t2', sh, b. repeat split; auto; try lia.
        intros s' Hs'. apply Hopt. lia.
    + destruct (IH (s + 1) t1 t2 sb bytes r ltac:(lia) Hsp Hb) as
        (t1' & t2' & sh & b & Hr & Hsp' & Hsh & Hbs & Hopt); [|exact H|].
      * intros s' Hs'. destruct (Z.eq_dec s' s) as [->|Hne'].
        { exists c. split; [exact Hc|]. split; [lia|]. intros _. lia. }
        apply Hall. lia.
      * exists t1', t2', sh, b. repeat split; auto; try lia.
        intros s' Hs'. apply Hopt. lia.
Qed.

End BinsOpt.

(* ------------------------------------------------------------------------- *)
(** * The claims *)

Module Claims.
Import RunCursor.

(** C1: the four [K_breakables] functions on a string [s].  The grapheme
    engine raises [TypeError] on every non-empty [s]; the line engine never
    returns a vector for a non-empty [s]; the sentence engine never returns a
    vector; only the word engine returns, for every [s], a vector of length
    [len s]. *)
Theorem segmentation_breakables_status :
  (forall (incb : Z -> bool) (s : str),
      s <> [] -> Grapheme.grapheme_cluster_breakables incb s = Err TypeError)
  /\ (forall (lbf : Z -> LineBreakM.LineBreak) (cat : Z -> string) (s : str) legacy b,
      s <> [] -> LineBreakM.line_break_breakables lbf cat s legacy <> Ok b)
  /\ (forall (sbf : Z -> SentenceBreakM.SentenceBreak) (s : str) b,
      SentenceBreakM.sentence_breakables sbf s <> Ok b)
  /\ (forall (wbf : Z -> WordBreakM.WordBreak) (epf : Z -> bool) (s : str),
      exists b, WordBreakM.word_breakables wbf epf s = Ok b /\ len b = len s).
Proof.
  split; [exact EngineFacts.grapheme_cluster_breakables_raises|].
  split; [intros lbf cat s legacy b; apply EngineFacts.line_break_breakables_raises; auto|].
  split; [exact EngineFacts.sentence_breakables_raises|].
  intros wbf epf s. destruct (WordResults.word_breakables_ok wbf epf s) as (b & Hb & Hl & _).
  exists b. auto.
Qed.

Lemma segmentation_breakables_status_witness :
  Grapheme.grapheme_cluster_breakables (fun _ => false) [97] = Err TypeError.
Proof.
  destruct segmentation_breakables_status as [H _].
  apply H. discriminate.
Defined.

(** C2: the boundaries of the four engines.  [grapheme_cluster_boundaries]
    raises [TypeError] and [line_break_boundaries] never returns on a
    non-empty [s]; [sentence_boundaries] never returns, even on the empty
    string; both of the first two give [[]] on the empty string.  Only
    [word_boundaries(s)] is what the claim states: strictly increasing, empty
    for an empty [s], and from 0 to [len s] for a non-empty [s]. *)
Theorem boundaries_status :
  (forall (incb : Z -> bool) (s : str),
      s <> [] -> Grapheme.grapheme_cluster_boundaries incb s = Err TypeError)
  /\ (forall (lbf : Z -> LineBreakM.LineBreak) (cat : Z -> string) (s : str) legacy b,
      s <> [] -> LineBreakM.line_break_boundaries lbf cat s legacy <> Ok b)
  /\ (forall (sbf : Z -> SentenceBreakM.SentenceBreak) (s : str) b,
      SentenceBreakM.sentence_boundaries sbf s <> Ok b)
  /\ (forall incb : Z -> bool, Grapheme.grapheme_cluster_boundaries incb [] = Ok [])
  /\ (forall (lbf : Z -> LineBreakM.LineBreak) (cat : Z -> string) legacy,
      LineBreakM.line_break_boundaries lbf cat [] legacy = Ok [])
  /\ (forall (wbf : Z -> WordBreakM.WordBreak) (epf : Z -> bool) (s : str),
      exists b, WordBreakM.word_boundaries wbf epf s = Ok b
        /\ StronglySorted Z.lt b
        /\ (s = [] -> b = [])
        /\ (s <> [] -> hd_error b = Some 0 /\ last b (-1) = len s)).
Proof.
  split; [intros incb s Hs; unfold Grapheme.grapheme_cluster_boundaries;
          rewrite EngineFacts.grapheme_cluster_breakables_raises by exact Hs; reflexivity|].
  split.
  { intros lbf cat s legacy b Hs. unfold LineBreakM.line_break_boundaries.
    destruct (LineBreakM.line_break_breakables lbf cat s legacy) as [b'|e] eqn:E;
      cbn [Py.bind]; [|discriminate].
    exfalso. exact (EngineFacts.line_break_breakables_raises lbf cat s legacy b' Hs E). }
  split.
  { intros sbf s b. unfold SentenceBreakM.sentence_boundaries.
    destruct (SentenceBreakM.sentence_breakables sbf s) as [b'|e] eqn:E;
      cbn [Py.bind]; [|discriminate].
    exfalso. exact (EngineFacts.sentence_breakables_raises sbf s b' E). }
  split; [reflexivity|]. split; [reflexivity|].
  intros wbf epf s. destruct (WordResults.word_breakables_ok wbf epf s) as (b & Hb & Hl & H0).
  unfold WordBreakM.word_boundaries. rewrite Hb. cbn [Py.bind].
  exists (Breaking.boundaries b). split; [reflexivity|].
  destruct (BreakingFacts.boundaries_spec b) as (Hs & _ & Hnil & Hlast & Hhd).
  split; [exact Hs|]. split.
  - intros ->. destruct b; [reflexivity|]. unfold len in Hl. cbn in Hl. lia.
  - intros Hne. specialize (H0 Hne).
    destruct b as [|bk rest]; [unfold zat in H0; discriminate|].
    unfold zat in H0. cbn in H0. injection H0 as ->.
    split; [apply (Hhd 1 rest eq_refl); reflexivity|].
    rewrite Hlast by discriminate. exact Hl.
Qed.

Lemma boundaries_status_witness :
  Grapheme.grapheme_cluster_boundaries (fun _ => false) [97] = Err TypeError.
Proof.
  destruct boundaries_status as [H _].
  apply H. discriminate.
Defined.

(** C3: the [legacy] argument of the line engine is never read: both values
    give the same result on every string; LB1 resolves [AI] to [AL]; and
    [line_break_units] on "α α" returns no units for either value. *)
Theorem line_legacy_ignored :
  (forall (lbf : Z -> LineBreakM.LineBreak) (cat : Z -> string) (s : str),
      LineBreakM.line_break_breakables lbf cat s true
      = LineBreakM.line_break_breakables lbf cat s false)
  /\ (forall (lbf : Z -> LineBreakM.LineBreak) (cat : Z -> string) ch,
      lbf ch = LineBreakM.AI -> LineBreakM.resolve_lb1_linebreak lbf cat ch = LineBreakM.AL)
  /\ (forall (lbf : Z -> LineBreakM.LineBreak) (cat : Z -> string) legacy u,
      LineBreakM.line_break_units lbf cat [945; 32; 945] legacy <> Ok u).
Proof.
  split; [reflexivity|].
  split.
  - intros lbf cat ch H. unfold LineBreakM.resolve_lb1_linebreak. rewrite H. reflexivity.
  - intros lbf cat legacy u. unfold LineBreakM.line_break_units.
    destruct (LineBreakM.line_break_breakables lbf cat [945; 32; 945] legacy) as [b|e] eqn:E.
    + exfalso. eapply EngineFacts.line_break_breakables_raises; [|exact E]. discriminate.
    + discriminate.
Qed.

Lemma line_legacy_ignored_witness :
  LineBreakM.resolve_lb1_linebreak (fun _ => LineBreakM.AI) (fun _ => "Lo"%string) 945
  = LineBreakM.AL.
Proof.
  destruct line_legacy_ignored as (_ & H & _).
  apply H. reflexivity.
Defined.

(** C4: [indicconjunctbreak.indic_conjunct_break] never returns: when the
    code point and the table lookup succeed it raises [KeyError], since it
    indexes the enum with the [bool] that [db.indic_conjunct_break] returns;
    and grapheme clustering of "क्ष" raises [TypeError]. *)
Theorem incb_accessor_raises :
  (forall columns index1 index2 shift values code_point (c : str) index x,
      IndicConjunctBreakM.indic_conjunct_break columns index1 index2 shift values
        code_point c index <> Ok x)
  /\ (forall columns index1 index2 shift values code_point (c : str) index cp b,
      code_point c index = Ok cp ->
      Db.indic_conjunct_break columns index1 index2 shift values cp = Ok b ->
      IndicConjunctBreakM.indic_conjunct_break columns index1 index2 shift values
        code_point c index = Err KeyError)
  /\ (forall incb : Z -> bool,
      Grapheme.grapheme_clusters incb [2325; 2381; 2359] = Err TypeError).
Proof.
  split; [|split].
  - intros columns index1 index2 shift values code_point c index x.
    unfold IndicConjunctBreakM.indic_conjunct_break.
    destruct (code_point c index); [|discriminate]. cbn [Py.bind].
    destruct (Db.indic_conjunct_break _ _ _ _ _ _); discriminate.
  - intros columns index1 index2 shift values code_point c index cp b Hc Hb.
    unfold IndicConjunctBreakM.indic_conjunct_break. rewrite Hc. cbn [Py.bind].
    rewrite Hb. reflexivity.
  - intros incb. unfold Grapheme.grapheme_clusters.
    rewrite EngineFacts.grapheme_cluster_breakables_raises by discriminate. reflexivity.
Qed.

Lemma incb_accessor_raises_witness :
  IndicConjunctBreakM.indic_conjunct_break ["InCB"%string] [0] (repeat 0 4096) 12 [["Linker"%string]]
    (fun _ _ => Ok 2381) [2381] 0 = Err KeyError.
Proof.
  destruct incb_accessor_raises as (_ & H & _).
  apply (H _ _ _ _ _ _ _ _ 2381 true); reflexivity.
Defined.

(** C5: decisions are write-once, but only the word engine finalises.
    [break_here] and [do_not_break_here] of [Run] keep every decided position,
    and [set_default] replaces the unknown positions only.  The word
    [Runner] writes without a test, but all the writes to one position over
    its passes write the same value; each position of its vector holds that
    value, and a position no rule wrote holds [1], [Break], the value the
    vector starts from.  The grapheme, line and sentence engines raise before
    their finalisation [run.set_default(...)]: on every non-empty [s], and
    for the sentence engine on every [s]. *)
Theorem decisions_write_once_status :
  (forall (T : Type) (r r' : Run T) k v,
      break_here r = Ok r' ->
      zat (run_breakables r) k = Some (Some v) -> zat (run_breakables r') k = Some (Some v))
  /\ (forall (T : Type) (r r' : Run T) k v,
      do_not_break_here r = Ok r' ->
      zat (run_breakables r) k = Some (Some v) -> zat (run_breakables r') k = Some (Some v))
  /\ (forall (T : Type) (r : Run T) b k x,
      zat (run_breakables r) k = Some x ->
      zat (run_breakables (set_default r b)) k
      = Some (match x with None => Some b | Some _ => x end))
  /\ (forall (wbf : Z -> WordBreakM.WordBreak) (epf : Z -> bool) (s : str) r,
      WordBreakM.word_run wbf epf s = Ok r ->
      (forall k v w, In (k, v) (WordBreakM._writes r) -> In (k, w) (WordBreakM._writes r) -> v = w)
      /\ (forall k v, In (k, v) (WordBreakM._writes r) -> zat (WordBreakM._breakables r) k = Some v)
      /\ (forall k v, zat (WordBreakM._breakables r) k = Some v ->
            v = Breakable_value Break \/ In (k, v) (WordBreakM._writes r)))
  /\ (forall (incb : Z -> bool) (s : str),
      s <> [] -> Grapheme.grapheme_cluster_breakables incb s = Err TypeError)
  /\ (forall (lbf : Z -> LineBreakM.LineBreak) (cat : Z -> string) (s : str) legacy b,
      s <> [] -> LineBreakM.line_break_breakables lbf cat s legacy <> Ok b)
  /\ (forall (sbf : Z -> SentenceBreakM.SentenceBreak) (s : str) b,
      SentenceBreakM.sentence_breakables sbf s <> Ok b).
Proof.
  split; [intros T r r' k v; apply RunWriteFacts.write_if_unknown_keeps|].
  split; [intros T r r' k v; apply RunWriteFacts.write_if_unknown_keeps|].
  split; [intros T r b k x; apply RunWriteFacts.set_default_entry|].
  split.
  { intros wbf epf s r H. split; [exact (WordResults.word_writes_agree wbf epf s r H)|].
    split; [|exact (WordFin.word_run_fin wbf epf s r H)].
    destruct (WordFacts.word_run_ok wbf epf s) as (r0 & E0 & HI).
    rewrite H in E0. injection E0 as <-. destruct HI as (_ & _ & _ & _ & _ & _ & _ & HW).
    exact HW. }
  split; [exact EngineFacts.grapheme_cluster_breakables_raises|].
  split; [intros lbf cat s legacy b; apply EngineFacts.line_break_breakables_raises|].
  exact EngineFacts.sentence_breakables_raises.
Qed.

Lemma decisions_write_once_status_witness :
  break_here (set_breakables (Run_new [97; 98] (fun c => c)) [Some DoNotBreak; None])
    = Ok (set_breakables (Run_new [97; 98] (fun c => c)) [Some DoNotBreak; None])
  /\ zat (run_breakables (set_breakables (Run_new [97; 98] (fun c => c)) [Some DoNotBreak; None])) 0
     = Some (Some DoNotBreak)
  /\ match WordBreakM.word_run Aux.wb_sample (fun _ => false) [97; 13; 10] with
     | Ok r => In (2, 0) (WordBreakM._writes r)
     | Err _ => False
     end.
Proof.
  destruct decisions_write_once_status as (H & _ & _ & HW & _).
  split; [reflexivity|]. split.
  - apply (H Z (set_breakables (Run_new [97; 98] (fun c => c)) [Some DoNotBreak; None])
             (set_breakables (Run_new [97; 98] (fun c => c)) [Some DoNotBreak; None]) 0 DoNotBreak);
      reflexivity.
  - destruct (WordBreakM.word_run Aux.wb_sample (fun _ => false) [97; 13; 10]) as [r|e] eqn:E;
      [|vm_compute in E; discriminate].
    destruct (HW _ _ _ r E) as (_ & _ & F).
    assert (Hz : zat (WordBreakM._breakables r) 2 = Some 0)
      by (vm_compute in E; injection E as <-; vm_compute; reflexivity).
    destruct (F 2 0 Hz) as [Hb|Hin]; [vm_compute in Hb; discriminate|exact Hin].
Defined.

(** C6: for every [s] and every vector [bs] with [len bs = len s], the tokens
    of [break_units s bs] concatenate to [s]; the word engine's units of every
    [s] concatenate to [s]; but [grapheme_clusters "ABC"] raises [TypeError]. *)
Theorem units_concat_status :
  (forall (s : str) (bs : list Z),
      List.length bs = List.length s -> List.concat (Breaking.break_units s bs) = s)
  /\ (forall (wbf : Z -> WordBreakM.WordBreak) (epf : Z -> bool) (s : str),
      exists u, WordBreakM.words wbf epf s = Ok u /\ List.concat u = s)
  /\ (forall incb : Z -> bool, Grapheme.grapheme_clusters incb [65; 66; 67] = Err TypeError).
Proof.
  split; [exact BreakingFacts.break_units_concat|].
  split.
  - intros wbf epf s. destruct (WordResults.word_breakables_ok wbf epf s) as (b & Hb & Hl & _).
    unfold WordBreakM.words. rewrite Hb. cbn [Py.bind].
    eexists. split; [reflexivity|]. apply BreakingFacts.break_units_concat.
    unfold len in Hl. lia.
  - intros incb. unfold Grapheme.grapheme_clusters.
    rewrite EngineFacts.grapheme_cluster_breakables_raises by discriminate. reflexivity.
Qed.

Lemma units_concat_status_witness :
  List.concat (Breaking.break_units [65; 66; 67] [1; 0; 1]) = [65; 66; 67].
Proof.
  destruct units_concat_status as (H & _).
  apply H. reflexivity.
Defined.

(** C7 (counterexample): [splitbins] raises [ValueError] on the empty table
    ([max] of an empty sequence in [getsize]). *)
Lemma splitbins_empty_counterexample : Build.splitbins [] = Err ValueError.
Proof. reflexivity. Qed.

(** C7 (amended): for every non-empty [t] with [8 * len t < sys.maxsize],
    [splitbins t] returns [(t1, t2, shift)] and every [t[i]] is
    [t2[(t1[i >> shift] << shift) + (i & ((1 << shift) - 1))]], both reads in
    range. *)
Theorem splitbins_reconstruction (t : list Z) :
  t <> [] -> 8 * len t < Build.maxsize ->
  exists t1 t2 sh, Build.splitbins t = Ok (t1, t2, sh) /\
    forall i, 0 <= i < len t -> exists a,
      getitem t1 (Z.shiftr i sh) = Ok a /\
      getitem t2 (Z.shiftl a sh + Z.land i (Z.shiftl 1 sh - 1)) = getitem t i.
Proof. exact (BuildFacts.splitbins_two_stage t). Qed.

Lemma splitbins_reconstruction_witness :
  exists t1 t2 sh, Build.splitbins [1; 1; 1; 1; 2; 2; 2; 2; 1; 1; 1; 1; 3] = Ok (t1, t2, sh) /\
    forall i, 0 <= i < len [1; 1; 1; 1; 2; 2; 2; 2; 1; 1; 1; 1; 3] -> exists a,
      getitem t1 (Z.shiftr i sh) = Ok a /\
      getitem t2 (Z.shiftl a sh + Z.land i (Z.shiftl 1 sh - 1))
      = getitem [1; 1; 1; 1; 2; 2; 2; 2; 1; 1; 1; 1; 3] i.
Proof.
  apply splitbins_reconstruction; [discriminate | vm_compute; reflexivity].
Defined.

(** C8: [_find_break] returns row 0 for every code point above [0x10FFFF], and
    each property accessor turns an empty table value into its default:
    ["Other"] for Grapheme_Cluster_Break, Word_Break and Sentence_Break, ["XX"]
    for Line_Break. *)
Theorem lookup_defaults :
  (forall index1 index2 shift cp,
      Db.maxunicode < cp -> Db._find_break index1 index2 shift cp = Ok 0)
  /\ (forall columns index1 index2 shift values cp,
      Db.property_value index1 index2 shift values (Db.INDEX_GRAPHEME_CLUSTER_BREAK columns) cp
        = Ok EmptyString ->
      Db.grapheme_cluster_break columns index1 index2 shift values cp = Ok "Other"%string)
  /\ (forall columns index1 index2 shift values cp,
      Db.property_value index1 index2 shift values (Db.INDEX_WORD_BREAK columns) cp
        = Ok EmptyString ->
      Db.word_break columns index1 index2 shift values cp = Ok "Other"%string)
  /\ (forall columns index1 index2 shift values cp,
      Db.property_value index1 index2 shift values (Db.INDEX_SENTENCE_BREAK columns) cp
        = Ok EmptyString ->
      Db.sentence_break columns index1 index2 shift values cp = Ok "Other"%string)
  /\ (forall columns index1 index2 shift values cp,
      Db.property_value index1 index2 shift values (Db.INDEX_LINE_BREAK columns) cp
        = Ok EmptyString ->
      Db.line_break columns index1 index2 shift values cp = Ok "XX"%string).
Proof.
  split.
  - intros index1 index2 shift cp H. unfold Db._find_break.
    replace (Db.maxunicode <? cp) with true by (symmetry; apply Z.ltb_lt; exact H).
    reflexivity.
  - split; [|split; [|split]]; intros columns index1 index2 shift values cp H;
      unfold Db.grapheme_cluster_break, Db.word_break, Db.sentence_break, Db.line_break;
      rewrite H; reflexivity.
Qed.

Lemma lookup_defaults_witness : Db._find_break [] [] 7 1114112 = Ok 0.
Proof.
  destruct lookup_defaults as (H & _).
  apply H. unfold Db.maxunicode. lia.
Defined.

(** C9: the table builder never emits a table.  Run as a script,
    [tools/build_db_lookups.py] imports [iter_code_point_properties] from
    [tools/ucdtools.py], which does not define it, so it raises
    [ImportError] before [main] runs, whatever [main] would do.  The function
    of that name in [uniseg.ucdtools] pairs each code point with a [str], and
    the loop of a named property reads [record.fields] of that [str]: it
    raises [AttributeError] as soon as one code point has a non-empty
    value. *)
Theorem table_builder_never_emits :
  (forall (A : Type) (main : unit -> result A),
      BuildScript.run_script A main = Err ImportError)
  /\ (forall (items : list (Z * string)) cp prop,
      0 <= cp <= Db.maxunicode -> BuildScript.dict_get items cp = Some prop ->
      prop <> ""%string -> BuildScript.named_column items = Err AttributeError).
Proof.
  split; [intros A main; reflexivity|].
  intros items cp prop Hcp Hget Hne.
  assert (Hv : BuildScript.named_value (BuildScript.dict_get items cp) = Err AttributeError).
  { rewrite Hget. cbn [BuildScript.named_value].
    destruct (String.eqb_spec prop ""); [contradiction|reflexivity]. }
  assert (Hloop : forall cps, In cp cps -> BuildScript.named_loop items cps = Err AttributeError).
  { induction cps as [|c rest IH]; intros Hin; [destruct Hin|].
    cbn [BuildScript.named_loop].
    destruct Hin as [<-|Hin]; [rewrite Hv; reflexivity|].
    destruct (BuildScript.named_value (BuildScript.dict_get items c)) as [v|e] eqn:Ec;
      cbn [Py.bind].
    - rewrite (IH Hin). reflexivity.
    - unfold BuildScript.named_value in Ec.
      destruct (BuildScript.dict_get items c) as [r|]; [|discriminate].
      destruct (String.eqb r ""); [discriminate|]. injection Ec as <-. reflexivity. }
  apply Hloop. apply in_map_iff. exists (Z.to_nat cp). split; [lia|].
  apply in_seq. unfold Db.maxunicode in *. lia.
Qed.

Lemma table_builder_never_emits_witness :
  BuildScript.named_column [(65, "Math"%string)] = Err AttributeError.
Proof.
  destruct table_builder_never_emits as (_ & H).
  apply (H [(65, "Math"%string)] 65 "Math"%string).
  - unfold Db.maxunicode. lia.
  - reflexivity.
  - discriminate.
Defined.

(** C10: for every [s] and every vector [bs] with [len bs = len s], every
    token of [break_units s bs] is a non-empty substring of [s], and a
    non-empty [s] yields at least one token. *)
Theorem break_units_nonempty_tokens (s : str) (bs : list Z) :
  List.length bs = List.length s ->
  Forall (fun t => t <> [] /\ BreakingFacts.substring_of s t) (Breaking.break_units s bs)
  /\ (s <> [] -> Breaking.break_units s bs <> []).
Proof. exact (BreakingFacts.break_units_tokens s bs). Qed.

Lemma break_units_nonempty_tokens_witness :
  Forall (fun t => t <> [] /\ BreakingFacts.substring_of [97; 98] t)
    (Breaking.break_units [97; 98] [1; 1])
  /\ ([97; 98] <> [] -> Breaking.break_units [97; 98] [1; 1] <> []).
Proof.
  apply break_units_nonempty_tokens. reflexivity.
Defined.

End Claims.

(* ------------------------------------------------------------------------- *)
(** * Further properties of the code *)

Module Extras.
Import RunCursor.

Lemma WB_eqb_true x y : WordBreakM.WB_eqb x y = true <-> x = y.
Proof.
  unfold WordBreakM.WB_eqb. destruct (WordBreakM.WordBreak_eq_dec x y); split; congruence.
Qed.

Lemma WB_mem_true x xs : mem WordBreakM.WB_eqb x xs = true <-> In x xs.
Proof.
  unfold mem. rewrite existsb_exists. split.
  - intros (y & Hy & Heq). apply WB_eqb_true in Heq. subst. exact Hy.
  - intros Hx. exists x. split; [exact Hx|]. apply WB_eqb_true. reflexivity.
Qed.

(** X1: [word_breakables(s)] returns a list of the length of [s] whose
    entries are all [0] or [1], and whose first entry is [1] when [s] is not
    empty. *)
Theorem word_breakables_binary (wbf : Z -> WordBreakM.WordBreak) (epf : Z -> bool) (s : str) :
  exists b, WordBreakM.word_breakables wbf epf s = Ok b /\ len b = len s
    /\ (s <> [] -> zat b 0 = Some 1) /\ Forall (fun v => v = 0 \/ v = 1) b.
Proof.
  destruct s as [|c rest].
  - exists []. repeat split; [congruence|constructor].
  - unfold WordBreakM.word_breakables.
    destruct (WordFacts.word_run_ok wbf epf (c :: rest)) as (r & -> & HI).
    cbn [Py.bind]. exists (WordBreakM._breakables r).
    destruct HI as (_ & _ & _ & Hl & H0 & _ & HA & _).
    split; [reflexivity|]. split; [exact Hl|]. split; [intros _; rewrite H0; reflexivity|].
    apply ListFacts.Forall_zat. intros k v Hv.
    pose proof (BuildFacts.zat_lt _ _ _ Hv) as Hk. rewrite Hl in Hk.
    destruct (Z.eq_dec k 0) as [->|Hk0].
    + rewrite H0 in Hv. injection Hv as <-. auto.
    + destruct (HA k ltac:(lia)) as [E|E]; rewrite Hv in E; injection E as ->; [auto|].
      unfold WordFacts.pass1_value.
      destruct (_ && _); [auto|]. destruct (_ || _); auto.
Qed.

(** X2: the line-terminator rules survive every later pass of
    [word_breakables(s)]: between a CR and an LF the entry is [0] (WB3);
    elsewhere, next to a Newline, CR or LF the entry is [1] (WB3a, WB3b). *)
Theorem word_newline_rules (wbf : Z -> WordBreakM.WordBreak) (epf : Z -> bool)
    (s : str) b k c1 c2 :
  WordBreakM.word_breakables wbf epf s = Ok b -> 1 <= k ->
  zat s (k - 1) = Some c1 -> zat s k = Some c2 ->
  (wbf c1 = WordBreakM.CR /\ wbf c2 = WordBreakM.LF -> zat b k = Some 0)
  /\ (~ (wbf c1 = WordBreakM.CR /\ wbf c2 = WordBreakM.LF) ->
      In (wbf c1) [WordBreakM.NEWLINE; WordBreakM.CR; WordBreakM.LF]
      \/ In (wbf c2) [WordBreakM.NEWLINE; WordBreakM.CR; WordBreakM.LF] ->
      zat b k = Some 1).
Proof.
  intros Hb Hk H1 H2.
  pose proof (BuildFacts.zat_lt _ _ _ H2) as Hks.
  destruct s as [|c rest]; [unfold len in Hks; simpl in Hks; lia|].
  unfold WordBreakM.word_breakables in Hb.
  destruct (WordFacts.word_run_ok wbf epf (c :: rest)) as (r & Er & HI).
  rewrite Er in Hb. cbn [Py.bind] in Hb. injection Hb as <-.
  pose proof HI as (_ & _ & _ & _ & _ & _ & HA & HB).
  assert (Zp : zat (map wbf (c :: rest)) (k - 1) = Some (wbf c1))
    by (rewrite ListFacts.zat_map, H1; reflexivity).
  assert (Zc : zat (map wbf (c :: rest)) k = Some (wbf c2))
    by (rewrite ListFacts.zat_map, H2; reflexivity).
  split.
  - intros (Ecr & Elf). apply HB.
    apply (WordLog.word_run_crlf wbf epf _ r Er k ltac:(lia)).
    rewrite Zp, Zc. cbn [opt_is]. rewrite Ecr, Elf. reflexivity.
  - intros Hn Hin. destruct (HA k ltac:(lia)) as [E|E]; [exact E|]. rewrite E. f_equal.
    unfold WordFacts.pass1_value, WordFacts.NLTuple. rewrite Zp, Zc. cbn [opt_is opt_in].
    destruct (WordBreakM.WB_eqb (wbf c1) WordBreakM.CR) eqn:Ec;
    destruct (WordBreakM.WB_eqb (wbf c2) WordBreakM.LF) eqn:El; cbn [andb];
      try (apply WB_eqb_true in Ec; apply WB_eqb_true in El; tauto);
      destruct Hin as [Hin|Hin]; apply WB_mem_true in Hin; rewrite Hin;
      rewrite ?orb_true_r; reflexivity.
Qed.

Lemma word_newline_rules_witness :
  WordBreakM.word_breakables Aux.wb_sample (fun _ => false) [97; 13; 10] = Ok [1; 1; 0]
  /\ zat [1; 1; 0] 2 = Some 0.
Proof.
  split; [vm_compute; reflexivity|].
  apply (proj1 (word_newline_rules Aux.wb_sample (fun _ => false) [97; 13; 10] [1; 1; 0] 2 13 10
                  ltac:(vm_compute; reflexivity) ltac:(lia) eq_refl eq_refl)).
  split; reflexivity.
Defined.

(** X3: when the vector has the length of [s], the tokens of
    [break_units(s, bs)] are the slices of [s] between consecutive boundaries
    of [boundaries(bs)], starting from 0 whether or not 0 is a boundary. *)
Theorem break_units_boundaries (s : str) (bs : list Z) :
  len bs = len s ->
  Breaking.break_units s bs
  = Aux.slices_between s 0 (filter (fun i => 0 <? i) (Breaking.boundaries bs)).
Proof.
  intros Hl. destruct bs as [|bk rest].
  - destruct s; [reflexivity|unfold len in Hl; cbn in Hl; lia].
  - destruct s as [|c s']; [unfold len in Hl; cbn in Hl; lia|].
    pose proof (BreakingFacts.boundaries_loop_spec rest 1 (Some 0)) as (Hr & _ & Hlast & _).
    pose proof (UnitsFacts.units_loop (c :: s') rest 1 0 (Some 0) ltac:(lia)) as HU.
    unfold Breaking.break_units, Breaking.boundaries. cbn [Breaking.break_units_loop Breaking.boundaries_loop].
    change (0 + 1) with 1.
    destruct (Breaking.boundaries_loop 1 rest (Some 0)) as [zs l] eqn:E.
    cbn [fst snd] in Hr, Hlast, HU.
    assert (Hl' : l = Some (len rest)).
    { rewrite Hlast. destruct rest; [reflexivity|]. f_equal. unfold len. cbn [List.length]. lia. }
    rewrite Hl'.
    assert (Hz : filter (fun i => 0 <? i) (zs ++ [len rest + 1]) = zs ++ [len (c :: s')]).
    { rewrite filter_app. f_equal.
      - apply forallb_filter_id. apply forallb_forall. intros x Hx.
        rewrite Forall_forall in Hr. specialize (Hr x Hx). apply Z.ltb_lt. lia.
      - cbn. replace (0 <? len rest + 1) with true
          by (symmetry; apply Z.ltb_lt; unfold len; lia).
        f_equal. f_equal. unfold len in *. cbn [List.length] in *. lia. }
    destruct (Breaking.truthy bk).
    + destruct (Breaking.break_units_loop (c :: s') 1 0 rest) as [ys i'] eqn:F.
      cbn [fst snd] in HU. cbn [Z.eqb app].
      cbn [filter app]. replace (0 <? 0) with false by reflexivity.
      rewrite Hz. exact HU.
    + destruct (Breaking.break_units_loop (c :: s') 1 0 rest) as [ys i'] eqn:F.
      cbn [fst snd] in HU. cbn [app]. rewrite Hz. exact HU.
Qed.

Lemma break_units_boundaries_witness :
  Breaking.break_units [65; 66; 67] [0; 1; 1]
  = Aux.slices_between [65; 66; 67] 0
      (filter (fun i => 0 <? i) (Breaking.boundaries [0; 1; 1])).
Proof. apply break_units_boundaries. reflexivity. Defined.

(** X4: when the skip set is empty or [noskip] is set, [Run.value(offset)]
    reads [values[position + offset]] of an active run: an index outside
    [[0, len(text))], negative ones included, gives [None], and an inactive
    run gives [None]. *)
Theorem value_without_skip {T : Type} (T_eqb : T -> T -> bool) (r : Run T) off ns :
  List.length (run_values r) = List.length (run_text r) ->
  (run_skip r = [] \/ ns = true) ->
  value T T_eqb r off ns
  = if run_condition r then zat (run_values r) (run_position r + off) else None.
Proof.
  intros Hl Hs. unfold value. rewrite (CursorFacts.calc_position_noskip T T_eqb r off ns Hs).
  destruct (run_condition r); [|reflexivity]. cbn [andb]. unfold zat.
  destruct (Z.leb_spec 0 (run_position r + off)); cbn [andb]; [|reflexivity].
  destruct (Z.ltb_spec (run_position r + off) (len (run_text r))); [reflexivity|].
  symmetry. apply nth_error_None. unfold len in *. lia.
Qed.

Lemma value_without_skip_witness :
  value Z Z.eqb (Run_new [97; 98] (fun c => c - 32)) (-1) false = None
  /\ value Z Z.eqb (Run_new [97; 98] (fun c => c - 32)) 1 false = Some 66.
Proof.
  split.
  - rewrite (value_without_skip Z.eqb (Run_new [97; 98] (fun c => c - 32)) (-1) false
               eq_refl (or_introl eq_refl)). reflexivity.
  - rewrite (value_without_skip Z.eqb (Run_new [97; 98] (fun c => c - 32)) 1 false
               eq_refl (or_introl eq_refl)). reflexivity.
Defined.

(** X5: [Run.value(offset)] with [offset != 0] and [noskip=False] never
    returns a value of the skip set: the skipping loop of [_calc_position]
    always passes over the skipped positions. *)
Theorem value_never_skipped {T : Type} (T_eqb : T -> T -> bool) (r : Run T) off v :
  off <> 0 -> value T T_eqb r off false = Some v -> mem T_eqb v (run_skip r) = false.
Proof.
  intros Hoff H. unfold value in H.
  destruct (run_condition r && (0 <=? calc_position T T_eqb r off false)
            && (calc_position T T_eqb r off false <? len (run_text r))) eqn:E; [|discriminate].
  apply andb_true_iff in E as (E & E2). apply andb_true_iff in E as (_ & E1).
  apply Z.leb_le in E1. apply Z.ltb_lt in E2.
  assert (Hst : CursorFacts.stops T T_eqb r false (calc_position T T_eqb r off false)).
  { unfold calc_position. destruct (Z.eqb_spec off 0) as [|_]; [contradiction|].
    apply CursorFacts.calc_steps_stops; [apply (CursorFacts.unit_vec off Hoff)|lia]. }
  destruct (mem T_eqb v (run_skip r)) eqn:Em; [|reflexivity].
  exfalso. apply Hst. split; [lia|]. cbn [negb andb]. unfold in_skip. rewrite H. exact Em.
Qed.

Lemma value_never_skipped_witness :
  value Z Z.eqb (skip Z (Run_new [1; 2; 3] (fun c => c)) [2]) 1 false = Some 3
  /\ mem Z.eqb 3 [2] = false.
Proof.
  split; [reflexivity|].
  apply (value_never_skipped Z.eqb (skip Z (Run_new [1; 2; 3] (fun c => c)) [2]) 1 3).
  - discriminate.
  - reflexivity.
Defined.

(** X6: [Run.walk] on an active run of a non-empty text leaves the position
    inside the text and returns the new condition; a successful walk moves to
    [_calc_position(offset)]; after a failed walk the run is inactive, so every
    further [walk] fails without moving and every [value] is [None]. *)
Theorem walk_clamps {T : Type} (T_eqb : T -> T -> bool) (r : Run T) off ns :
  run_text r <> [] -> run_condition r = true ->
  let r' := snd (walk T T_eqb r off ns) in
  0 <= run_position r' < len (run_text r)
  /\ run_text r' = run_text r
  /\ run_condition r' = fst (walk T T_eqb r off ns)
  /\ (fst (walk T T_eqb r off ns) = true -> run_position r' = calc_position T T_eqb r off ns)
  /\ (fst (walk T T_eqb r off ns) = false ->
      forall off' ns', walk T T_eqb r' off' ns' = (false, r') /\ value T T_eqb r' off' ns' = None).
Proof.
  intros Hne Hc. unfold walk. rewrite Hc.
  assert (Hn : 1 <= len (run_text r))
    by (destruct (run_text r); [congruence|unfold len; cbn [List.length]; lia]).
  destruct (Z.ltb_spec (calc_position T T_eqb r off ns) 0);
  [|destruct (Z.leb_spec (len (run_text r)) (calc_position T T_eqb r off ns))];
  cbn [fst snd set_position_condition run_position run_text run_condition];
  (split; [lia|]); (split; [reflexivity|]); (split; [reflexivity|]);
  (split; [try discriminate; reflexivity|]); try discriminate;
  intros _ off' ns'; (split; [reflexivity|]); unfold value; reflexivity.
Qed.

Lemma walk_clamps_witness :
  walk Z Z.eqb (Run_new [97; 98] (fun c => c)) 5 false
  = (false, set_position_condition (Run_new [97; 98] (fun c => c)) 1 false)
  /\ 0 <= 1 < len [97; 98].
Proof.
  split; [reflexivity|].
  apply (walk_clamps Z.eqb (Run_new [97; 98] (fun c => c)) 5 false); [discriminate|reflexivity].
Defined.

(** X7: [does_break_here] after [break_here] at a position inside the
    breakables is [True] unless [DoNotBreak] was already decided there; after
    [do_not_break_here] it is [True] only if [Break] was already decided.  On
    a run over the empty text, whose breakables have one entry per character
    as [__init__] makes them, it raises [IndexError] at every position. *)
Theorem does_break_here_after {T : Type} (r : Run T) :
  run_text r <> [] -> 0 <= run_position r < len (run_breakables r) ->
  (exists r', break_here r = Ok r'
     /\ does_break_here r' = Ok (match zat (run_breakables r) (run_position r) with
                                 | Some (Some DoNotBreak) => false | _ => true end))
  /\ (exists r', do_not_break_here r = Ok r'
     /\ does_break_here r' = Ok (match zat (run_breakables r) (run_position r) with
                                 | Some (Some Break) => true | _ => false end))
  /\ (forall r0 : Run T, run_text r0 = [] -> len (run_breakables r0) = len (run_text r0) ->
        does_break_here r0 = Err IndexError).
Proof.
  intros Hne Hp.
  assert (HW : forall b, exists r', write_if_unknown r b = Ok r'
     /\ does_break_here r' = Ok (match zat (run_breakables r) (run_position r) with
                                 | Some (Some b') => negb (Breakable_value b' =? 0)
                                 | _ => negb (Breakable_value b =? 0) end)).
  { intros b. unfold write_if_unknown.
    destruct (run_text r) as [|c rest]; [congruence|].
    rewrite (BuildFacts.getitem_zat _ (run_position r) ltac:(lia)).
    destruct (BuildFacts.zat_in_range _ _ Hp) as (x & Hx). rewrite Hx.
    destruct x as [b'|].
    - exists r. split; [reflexivity|]. unfold does_break_here.
      rewrite (BuildFacts.getitem_zat _ (run_position r) ltac:(lia)), Hx. reflexivity.
    - unfold setitem. destruct (Z.ltb_spec (run_position r) 0); [lia|].
      destruct (Z.leb_spec 0 (run_position r)); [|lia].
      destruct (Z.ltb_spec (run_position r) (len (run_breakables r))); [|lia]. cbn [andb Py.bind].
      eexists. split; [reflexivity|]. unfold does_break_here. cbn [set_breakables run_breakables run_position].
      rewrite (BuildFacts.getitem_zat _ (run_position r) ltac:(lia)), WordFacts.zat_set_nth_eq by lia.
      reflexivity. }
  split; [|split].
  - destruct (HW Break) as (r' & E & D). exists r'. split; [exact E|]. rewrite D.
    destruct (zat _ _) as [[[|]|]|]; reflexivity.
  - destruct (HW DoNotBreak) as (r' & E & D). exists r'. split; [exact E|]. rewrite D.
    destruct (zat _ _) as [[[|]|]|]; reflexivity.
  - intros r0 Ht Hl. rewrite Ht in Hl.
    destruct (run_breakables r0) as [|x rest] eqn:Eb; [|unfold len in Hl; cbn in Hl; lia].
    unfold does_break_here, getitem. rewrite Eb.
    destruct (_ && _); [destruct (Z.to_nat _); reflexivity|reflexivity].
Qed.

Lemma does_break_here_after_witness :
  (exists r', break_here (set_breakables (Run_new [97] (fun c => c)) [Some DoNotBreak]) = Ok r'
     /\ does_break_here r' = Ok false)
  /\ does_break_here (set_position_condition (Run_new [] (fun c => c)) (-1) false) = Err IndexError.
Proof.
  destruct (does_break_here_after (set_breakables (Run_new [97] (fun c => c)) [Some DoNotBreak])
              ltac:(discriminate) ltac:(cbn; unfold len; cbn; lia)) as ((r' & E & D) & _ & H0).
  split.
  - exists r'. split; [exact E|]. exact D.
  - apply H0; reflexivity.
Defined.

(** X8: [literal_breakables] gives one [0] or [1] per position, and after
    [set_default(b)] its own default no longer matters: the result is
    [literal_breakables(b)] of the run before. *)
Theorem literal_breakables_set_default {T : Type} (r : Run T) (b d : Breakable) :
  literal_breakables (set_default r b) d = literal_breakables r b
  /\ len (literal_breakables r d) = len (run_breakables r)
  /\ Forall (fun v => v = 0 \/ v = 1) (literal_breakables r d).
Proof.
  unfold literal_breakables, set_default. cbn [set_breakables run_breakables].
  split; [|split].
  - rewrite map_map. apply map_ext. intros [x|]; reflexivity.
  - unfold len. rewrite length_map. reflexivity.
  - apply Forall_forall. intros v Hv. apply in_map_iff in Hv as (x & <- & _).
    destruct x as [[|]|]; [auto|auto|destruct d; auto].
Qed.

(** X9: the property accessors turn the string stored in the table back into
    the member whose value it is: [GraphemeClusterBreak[name.upper()]],
    [WordBreak[name.upper()]] and [LineBreak[name]] return [m] when the
    [uniseg.db] accessor returns the value of [m]; an empty table entry gives
    [OTHER], [OTHER] and [XX]. *)
Theorem accessors_roundtrip columns index1 index2 shift values
    (code_point : str -> Z -> result Z) :
  (forall ch index c m, getitem ch index = Ok c ->
     Db.grapheme_cluster_break columns index1 index2 shift values c
       = Ok (Accessors.GraphemeClusterBreak_value m) ->
     Accessors.grapheme_cluster_break columns index1 index2 shift values ch index = Ok m)
  /\ (forall ch index c, getitem ch index = Ok c ->
     Db.property_value index1 index2 shift values
       (Db.INDEX_GRAPHEME_CLUSTER_BREAK columns) c = Ok EmptyString ->
     Accessors.grapheme_cluster_break columns index1 index2 shift values ch index
       = Ok Accessors.OTHER)
  /\ (forall c index cp m, code_point c index = Ok cp ->
     Db.word_break columns index1 index2 shift values cp = Ok (Accessors.WordBreak_value m) ->
     Accessors.word_break columns index1 index2 shift values code_point c index = Ok m)
  /\ (forall c index cp, code_point c index = Ok cp ->
     Db.property_value index1 index2 shift values (Db.INDEX_WORD_BREAK columns) cp
       = Ok EmptyString ->
     Accessors.word_break columns index1 index2 shift values code_point c index
       = Ok WordBreakM.OTHER)
  /\ (forall c index ch m, getitem c index = Ok ch ->
     Db.line_break columns index1 index2 shift values ch = Ok (Accessors.LineBreak_value m) ->
     Accessors.line_break columns index1 index2 shift values c index = Ok m)
  /\ (forall c index ch, getitem c index = Ok ch ->
     Db.property_value index1 index2 shift values (Db.INDEX_LINE_BREAK columns) ch
       = Ok EmptyString ->
     Accessors.line_break columns index1 index2 shift values c index = Ok LineBreakM.XX).
Proof.
  assert (G : forall m, Accessors.enum_lookup Accessors.GraphemeClusterBreak_members
               (Accessors.py_upper (Accessors.GraphemeClusterBreak_value m)) = Ok m)
    by (destruct m; reflexivity).
  assert (W : forall m, Accessors.enum_lookup Accessors.WordBreak_members
               (Accessors.py_upper (Accessors.WordBreak_value m)) = Ok m)
    by (destruct m; reflexivity).
  assert (L : forall m, Accessors.enum_lookup Accessors.LineBreak_members
               (Accessors.LineBreak_value m) = Ok m)
    by (destruct m; reflexivity).
  split; [|split; [|split; [|split; [|split]]]].
  - intros ch index c m H1 H2. unfold Accessors.grapheme_cluster_break.
    rewrite H1. cbn [Py.bind]. rewrite H2. apply G.
  - intros ch index c H1 H2. unfold Accessors.grapheme_cluster_break, Db.grapheme_cluster_break.
    rewrite H1. cbn [Py.bind]. rewrite H2. apply (G Accessors.OTHER).
  - intros c index cp m H1 H2. unfold Accessors.word_break.
    rewrite H1. cbn [Py.bind]. rewrite H2. apply W.
  - intros c index cp H1 H2. unfold Accessors.word_break, Db.word_break.
    rewrite H1. cbn [Py.bind]. rewrite H2. apply (W WordBreakM.OTHER).
  - intros c index ch m H1 H2. unfold Accessors.line_break.
    rewrite H1. cbn [Py.bind]. rewrite H2. apply L.
  - intros c index ch H1 H2. unfold Accessors.line_break, Db.line_break.
    rewrite H1. cbn [Py.bind]. rewrite H2. apply (L LineBreakM.XX).
Qed.

Lemma accessors_roundtrip_witness :
  Accessors.grapheme_cluster_break ["GraphemeClusterBreak"%string] [0] (repeat 0 128) 7
    [["SpacingMark"%string]] [97] 0 = Ok Accessors.SPACINGMARK.
Proof.
  destruct (accessors_roundtrip ["GraphemeClusterBreak"%string] [0] (repeat 0 128) 7
              [["SpacingMark"%string]] (fun _ _ => Ok 0)) as [H _].
  apply (H [97] 0 97 Accessors.SPACINGMARK); vm_compute; reflexivity.
Defined.

(** X10: LB1 as [resolve_lb1_linebreak] resolves it never yields [AI], [SG],
    [XX], [SA] or [CJ]; every other class is kept, [CJ] becomes [NS], and
    [SA] becomes [CM] exactly for the categories [Mn] and [Mc]. *)
Theorem resolve_lb1_range (lbf : Z -> LineBreakM.LineBreak) (cat : Z -> string) (ch : Z) :
  let lb := LineBreakM.resolve_lb1_linebreak lbf cat ch in
  ~ In lb [LineBreakM.AI; LineBreakM.SG; LineBreakM.XX; LineBreakM.SA; LineBreakM.CJ]
  /\ (~ In (lbf ch) [LineBreakM.AI; LineBreakM.SG; LineBreakM.XX; LineBreakM.SA; LineBreakM.CJ] ->
      lb = lbf ch)
  /\ (lbf ch = LineBreakM.CJ -> lb = LineBreakM.NS)
  /\ (lbf ch = LineBreakM.SA -> (lb = LineBreakM.CM <-> In (cat ch) ["Mn"; "Mc"]%string)).
Proof.
  cbv zeta. unfold LineBreakM.resolve_lb1_linebreak.
  destruct (lbf ch) eqn:E; cbn [mem existsb LineBreakM.LB_eqb LineBreakM.LineBreak_eq_dec orb];
    try (repeat split;
         first [ intros H; discriminate H | intros H; reflexivity
               | intros H; exfalso; apply H; cbn; tauto | cbn; intuition discriminate ]).
  simpl.
  destruct (String.eqb_spec (cat ch) "Mn") as [Hm|Hm];
    [|destruct (String.eqb_spec (cat ch) "Mc") as [Hc|Hc]]; cbn [orb];
    intuition (try discriminate; try congruence).
Qed.

Lemma resolve_lb1_range_witness :
  LineBreakM.resolve_lb1_linebreak (fun _ => LineBreakM.SA) (fun _ => "Mn"%string) 3633
    = LineBreakM.CM.
Proof.
  apply (proj2 (proj2 (proj2 (resolve_lb1_range (fun _ => LineBreakM.SA) (fun _ => "Mn"%string)
                                3633))) eq_refl).
  cbn. auto.
Defined.

(** X11: the [shift] that [splitbins(t)] returns is the smallest one of
    least size among [0 .. maxshift], where [maxshift = log2(len(t) - 1)] and
    the size of a shift is [len(t1) * getsize(t1) + len(t2) * getsize(t2)] of
    its candidate tables; the returned tables are that shift's candidates. *)
Theorem splitbins_min_size (t : list Z) t1 t2 sh :
  t <> [] -> 8 * len t < Build.maxsize -> Build.splitbins t = Ok (t1, t2, sh) ->
  (t1, t2) = Build.split_with t sh /\ 0 <= sh <= Z.log2 (len t - 1)
  /\ exists b, Aux.table_bytes t sh = Ok b
     /\ forall s, 0 <= s <= Z.log2 (len t - 1) ->
        exists c, Aux.table_bytes t s = Ok c /\ b <= c /\ (c = b -> sh <= s).
Proof.
  intros Hne Hsize H. unfold Build.splitbins in H. rewrite BinsOpt.maxshift_log2 in H.
  pose proof (Z.log2_nonneg (len t - 1)) as HL.
  replace (Z.to_nat (Z.log2 (len t - 1) + 1)) with (S (Z.to_nat (Z.log2 (len t - 1)))) in H
    by lia.
  cbn [Build.shifts_loop] in H.
  destruct (BinsOpt.table_bytes_ok t 0 Hne ltac:(lia)) as (c0 & Hc0 & Hc0le).
  pose proof Hc0 as Hc0'. unfold Aux.table_bytes in Hc0'.
  destruct (Build.split_with t 0) as [u1 u2] eqn:E0.
  destruct (Build.getsize u1) as [g1|e]; cbn [Py.bind] in H, Hc0'; [|discriminate].
  destruct (Build.getsize u2) as [g2|e]; cbn [Py.bind] in H, Hc0'; [|discriminate].
  injection Hc0' as Hc0'. rewrite Hc0' in H.
  destruct (Z.ltb_spec c0 Build.maxsize) as [_|Hb]; [|lia].
  destruct (Build.shifts_loop _ t (0 + 1) (Some (u1, u2, 0)) c0) as [[r|]|e] eqn:Er;
    cbn [Py.bind] in H; try discriminate.
  injection H as ->.
  destruct (BinsOpt.shifts_loop_opt t Hne (Z.to_nat (Z.log2 (len t - 1))) 1 u1 u2 0 c0 (t1, t2, sh) ltac:(lia)
              (eq_sym E0) Hc0) as (t1' & t2' & sh' & b & Hr & Hsp & Hsh & Hb & Hopt).
  - intros s' Hs'. assert (s' = 0) as -> by lia. exists c0.
    split; [exact Hc0|]. split; [lia|]. intros _. lia.
  - exact Er.
  - injection Hr as -> -> ->. split; [exact Hsp|]. split; [lia|].
    exists b. split; [exact Hb|]. intros s Hs. apply Hopt. lia.
Qed.

Lemma splitbins_min_size_witness :
  Build.splitbins [0; 0; 0; 0; 0; 0; 0; 0; 1; 1; 1; 1; 1; 1; 1; 1]
    = Ok ([0; 0; 0; 0; 1; 1; 1; 1], [0; 0; 1; 1], 1)
  /\ 0 <= 1 <= Z.log2 (len [0; 0; 0; 0; 0; 0; 0; 0; 1; 1; 1; 1; 1; 1; 1; 1] - 1).
Proof.
  split; [vm_compute; reflexivity|].
  apply (splitbins_min_size [0; 0; 0; 0; 0; 0; 0; 0; 1; 1; 1; 1; 1; 1; 1; 1]
           [0; 0; 0; 0; 1; 1; 1; 1] [0; 0; 1; 1] 1);
    [discriminate|vm_compute; reflexivity|vm_compute; reflexivity].
Defined.

(** X13: [getsize(data)] of a non-empty list is the smallest of 1, 2 and 4
    bytes whose unsigned range holds every element: it is at most 1 exactly
    when every element is below [0x100], at most 2 exactly when every element
    is below [0x10000], and 4 otherwise, without any check of its own. *)
Theorem getsize_smallest (l : list Z) (Hne : l <> []) :
  exists g, Build.getsize l = Ok g /\ (g = 1 \/ g = 2 \/ g = 4) /\
    (g <= 1 <-> Forall (fun x => x < 2 ^ 8) l) /\
    (g <= 2 <-> Forall (fun x => x < 2 ^ 16) l).
Proof.
  destruct l as [|x rest]; [contradiction|]. clear Hne.
  assert (Hmax : forall c, fold_left Z.max rest x < c <-> Forall (fun y => y < c) (x :: rest)).
  { intros c. revert x. induction rest as [|y rest IH]; intros x; cbn [fold_left].
    - rewrite Forall_cons_iff. split; [intros H; split; [exact H|constructor]|intros [H _]; exact H].
    - rewrite IH, !Forall_cons_iff. split.
      + intros [H1 H2]. repeat split; [lia|lia|exact H2].
      + intros (H1 & H2 & H3). split; [lia|exact H3]. }
  unfold Build.getsize, Build.py_max. cbn [Py.bind].
  change (2 ^ 8) with 256. change (2 ^ 16) with 65536.
  destruct (Z.ltb_spec (fold_left Z.max rest x) 256);
    [|destruct (Z.ltb_spec (fold_left Z.max rest x) 65536)];
    eexists; (split; [reflexivity|]); rewrite <- !Hmax; lia.
Qed.

Lemma getsize_smallest_witness :
  exists g, Build.getsize [3; 300; 7] = Ok g /\ (g = 1 \/ g = 2 \/ g = 4) /\
    (g <= 1 <-> Forall (fun x => x < 2 ^ 8) [3; 300; 7]) /\
    (g <= 2 <-> Forall (fun x => x < 2 ^ 16) [3; 300; 7]).
Proof.
  apply (getsize_smallest [3; 300; 7]). discriminate.
Defined.

(** X14: a tailor that keeps the length of the breakables keeps [words] a
    partition of [s]: [words(s, tailor)] yields non-empty pieces whose
    concatenation is [s], and [word_boundaries(s, tailor)] yields strictly
    increasing indices in [[0, len(s)]] that end at [len(s)] for a non-empty
    [s]. *)
Theorem words_tailor_partition (wbf : Z -> WordBreakM.WordBreak) (epf : Z -> bool)
    (f : str -> list Z -> list Z) (s : str)
    (Hf : forall s' b, List.length (f s' b) = List.length b) :
  exists ws bnds, Aux.words_tailored wbf epf (Some f) s = Ok ws
    /\ Aux.word_boundaries_tailored wbf epf (Some f) s = Ok bnds
    /\ List.concat ws = s /\ Forall (fun t => t <> []) ws
    /\ StronglySorted Z.lt bnds /\ Forall (fun x => 0 <= x <= len s) bnds
    /\ (s <> [] -> last bnds (-1) = len s).
Proof.
  assert (Hb : exists b, WordBreakM.word_breakables wbf epf s = Ok b
                         /\ List.length b = List.length s).
  { destruct s as [|c rest]; [exists []; split; reflexivity|].
    unfold WordBreakM.word_breakables.
    destruct (WordFacts.word_run_ok wbf epf (c :: rest)) as (r & -> & HI).
    destruct HI as (_ & _ & _ & Hl & _).
    exists (WordBreakM._breakables r). split; [reflexivity|]. unfold len in Hl. lia. }
  destruct Hb as (b & Eb & Hl).
  assert (Hfl : List.length (f s b) = List.length s) by (rewrite Hf; exact Hl).
  unfold Aux.words_tailored, Aux.word_boundaries_tailored. rewrite Eb. cbn [Py.bind].
  exists (Breaking.break_units s (f s b)), (Breaking.boundaries (f s b)).
  destruct (BreakingFacts.break_units_tokens s (f s b) Hfl) as (Ht & _).
  destruct (BreakingFacts.boundaries_spec (f s b)) as (Hs & Hr & _ & Hlast).
  assert (Hlen : len (f s b) = len s) by (unfold len; rewrite Hfl; reflexivity).
  split; [reflexivity|]. split; [reflexivity|].
  split; [exact (BreakingFacts.break_units_concat s (f s b) Hfl)|].
  split; [eapply Forall_impl; [|exact Ht]; intros t [Ht1 _]; exact Ht1|].
  split; [exact Hs|]. rewrite <- Hlen. split; [exact Hr|].
  intros Hne. apply Hlast. intros E. apply Hne.
  destruct s; [reflexivity|]. rewrite E in Hfl. discriminate.
Qed.

Lemma words_tailor_partition_witness :
  exists ws bnds,
    Aux.words_tailored Aux.wb_sample (fun _ => false) (Some (fun _ b => map (fun _ => 1) b)) [97; 32; 98] = Ok ws
    /\ Aux.word_boundaries_tailored Aux.wb_sample (fun _ => false) (Some (fun _ b => map (fun _ => 1) b)) [97; 32; 98] = Ok bnds
    /\ List.concat ws = [97; 32; 98] /\ Forall (fun t => t <> []) ws
    /\ StronglySorted Z.lt bnds /\ Forall (fun x => 0 <= x <= len [97; 32; 98]) bnds
    /\ ([97; 32; 98] <> [] -> last bnds (-1) = len [97; 32; 98]).
Proof.
  apply (words_tailor_partition Aux.wb_sample (fun _ => false) (fun _ b => map (fun _ => 1) b) [97; 32; 98]).
  intros s' b. simpl. apply length_map.
Defined.

End Extras.
